(** * mini-display: the region-update protocol of [src/main.cpp]

    A shallow embedding of the firmware's decode loop
    ([readExactBytes] and [loop]) as a small state-and-exit monad over an
    explicit device state, followed by the properties of the protocol.

    Target platform: ESP8266 (the sketch includes [ESP8266WiFi.h]): [int] is
    32 bits, [size_t] and [unsigned long] are 32 bits unsigned, and memory is
    little-endian.

    Time: the clock counts milliseconds; it moves in [yield()], by one, and
    in [delay(ms)], by [ms], and nowhere else.  The client is a queue of
    bytes, each with the time from which [client.available()] sees it. *)

From Stdlib Require Import ZArith Lia Bool String.
From stdpp Require Import base list.

Open Scope Z_scope.

(** * The program *)

(** ** Machine integers *)

Module Int.

Definition uint8 (z : Z) : Z := z mod 2 ^ 8.
Definition uint16 (z : Z) : Z := z mod 2 ^ 16.
(** [size_t] and [unsigned long]. *)
Definition uint32 (z : Z) : Z := z mod 2 ^ 32.
(** [int]: two's complement, 32 bits. *)
Definition int32 (z : Z) : Z := (z + 2 ^ 31) mod 2 ^ 32 - 2 ^ 31.

End Int.
Import Int.

(** ** Constants of the sketch *)

(** [const int MAX_CHUNK_SIZE = 32;] *)
Definition MAX_CHUNK_SIZE : Z := 32.

(** Size in bytes of [uint16_t updateBuffer[MAX_CHUNK_SIZE * MAX_CHUNK_SIZE]]. *)
Definition BUFFER_BYTES : Z := 2 * (MAX_CHUNK_SIZE * MAX_CHUNK_SIZE).

(** The two characters of the acknowledgment ["OK"]. *)
Definition OK_bytes : list Z := [79; 75].

(** ** Device state *)

(** The accepted connection: [server.accept()] gave no client, an open one,
    or one on which [client.stop()] has been called. *)
Inductive Link := NoPeer | Open | Closed.

(** One call [tft.pushImage(x, y, w, h, updateBuffer)].  The driver is
    synchronous, so the call sees the bytes of the buffer as they are when it
    is made: [pdata] is that snapshot, byte by byte. *)
Record Paint := mkPaint {
  px : Z; py : Z; pw : Z; ph : Z;
  pdata : list Z
}.

Record State := mkState {
  (** milliseconds since boot; [millis()] is this value as an [unsigned long] *)
  now : Z;
  link : Link;
  (** bytes on their way from the client, in stream order, each with the
      time at which it becomes available to [client.read()] *)
  inbox : list (Z * Z);
  (** bytes handed to [client.write], oldest first *)
  sent : list Z;
  (** the local [uint8_t metaData[8]] of the region loop *)
  metaData : list Z;
  (** the global [updateBuffer], as the bytes seen through a byte pointer *)
  updateBuffer : list Z;
  (** the calls to [tft.pushImage], oldest first *)
  painted : list Paint;
  (** byte addresses of [updateBuffer] written so far, newest first (a
      history kept for the proofs; the program does not read it) *)
  stores : list Z
}.

(** A byte pointer: the array it points into and the byte offset. *)
Inductive Ptr := MetaPtr (off : Z) | BufPtr (off : Z).

(** The places where [loop] executes [return;] before its end, named after
    the message printed on [Serial] there. *)
Inductive Outcome :=
| NoClient                     (* [if (!client) return;] *)
| ClientTimeout                (* "Client timeout" *)
| InvalidRegions               (* "Invalid number of regions" *)
| MetadataFailed (i : Z)       (* "Failed to read region metadata" *)
| InvalidDimensions (i : Z)    (* "Invalid region dimensions" *)
| RowFailed (row i : Z).       (* "Failed to read row %d of region %d" *)

(** ** The monad: state, early [return], memory faults *)

Inductive Res (A : Type) :=
| Val (a : A) (s : State)      (* ran to completion *)
| Exit (o : Outcome) (s : State) (* [return;] inside [loop] *)
| Fault                        (* access outside an array *)
| Fuel.                        (* a polling loop did not finish *)
Arguments Val {A} a s.
Arguments Exit {A} o s.
Arguments Fault {A}.
Arguments Fuel {A}.

Definition M (A : Type) : Type := State -> Res A.

Definition ret {A} (a : A) : M A := fun s => Val a s.

Definition bind {A B} (m : M A) (k : A -> M B) : M B :=
  fun s => match m s with
           | Val a s' => k a s'
           | Exit o s' => Exit o s'
           | Fault => Fault
           | Fuel => Fuel
           end.

Definition exit {A} (o : Outcome) : M A := fun s => Exit o s.

Notation "x <- m ;; k" := (bind m (fun x => k))
  (at level 100, m at next level, right associativity).
Notation "m ;;; k" := (bind m (fun _ => k))
  (at level 100, right associativity).

(** ** State updates *)

Definition set_now (t : Z) (s : State) : State :=
  mkState t (link s) (inbox s) (sent s) (metaData s) (updateBuffer s)
          (painted s) (stores s).
Definition set_link (l : Link) (s : State) : State :=
  mkState (now s) l (inbox s) (sent s) (metaData s) (updateBuffer s)
          (painted s) (stores s).
Definition set_inbox (q : list (Z * Z)) (s : State) : State :=
  mkState (now s) (link s) q (sent s) (metaData s) (updateBuffer s)
          (painted s) (stores s).
Definition set_sent (o : list Z) (s : State) : State :=
  mkState (now s) (link s) (inbox s) o (metaData s) (updateBuffer s)
          (painted s) (stores s).
Definition set_metaData (m : list Z) (s : State) : State :=
  mkState (now s) (link s) (inbox s) (sent s) m (updateBuffer s)
          (painted s) (stores s).
Definition set_updateBuffer (m : list Z) (a : Z) (s : State) : State :=
  mkState (now s) (link s) (inbox s) (sent s) (metaData s) m
          (painted s) (a :: stores s).
Definition set_painted (p : list Paint) (s : State) : State :=
  mkState (now s) (link s) (inbox s) (sent s) (metaData s) (updateBuffer s)
          p (stores s).

(** ** The environment: clock, client, memory, display *)

(** [millis()] *)
Definition millis : M Z := fun s => Val (uint32 (now s)) s.

(** [yield()]: one pass through the scheduler, one millisecond in this
    model. *)
Definition yield : M unit := fun s => Val tt (set_now (now s + 1) s).

(** [delay(ms)] *)
Definition delay (ms : Z) : M unit := fun s => Val tt (set_now (now s + ms) s).

(** Has the first byte still in flight arrived? *)
Definition arrived (s : State) : bool :=
  match inbox s with
  | (t, _) :: _ => t <=? now s
  | [] => false
  end.

(** [server.accept()] followed by the test [!client]. *)
Definition server_accept : M bool :=
  fun s => Val (match link s with Open => true | _ => false end) s.

(** [client.available()], as the truth value the sketch uses it for. *)
Definition client_available : M bool := fun s => Val (arrived s) s.

(** [client.read()]: the next byte, or [-1] when none has arrived. *)
Definition client_read : M Z :=
  fun s => match inbox s with
           | (t, b) :: q =>
               if t <=? now s then Val (uint8 b) (set_inbox q s) else Val (-1) s
           | [] => Val (-1) s
           end.

(** [client.write(bytes)] *)
Definition client_write (bs : list Z) : M unit :=
  fun s => Val tt (set_sent (sent s ++ bs) s).

(** [client.stop()] *)
Definition client_stop : M unit := fun s => Val tt (set_link Closed s).

(** [p[i]] as an rvalue. *)
Definition load (p : Ptr) (i : Z) : M Z :=
  fun s =>
    let '(mem, a) := match p with
                     | MetaPtr off => (metaData s, off + i)
                     | BufPtr off => (updateBuffer s, off + i)
                     end in
    if a <? 0 then Fault
    else match mem !! Z.to_nat a with
         | Some v => Val v s
         | None => Fault
         end.

(** [p[i] = v] *)
Definition store (p : Ptr) (i : Z) (v : Z) : M unit :=
  fun s =>
    match p with
    | MetaPtr off =>
        let a := off + i in
        if (0 <=? a) && (a <? Z.of_nat (length (metaData s)))
        then Val tt (set_metaData (<[Z.to_nat a := v]> (metaData s)) s)
        else Fault
    | BufPtr off =>
        let a := off + i in
        if (0 <=? a) && (a <? Z.of_nat (length (updateBuffer s)))
        then Val tt (set_updateBuffer (<[Z.to_nat a := v]> (updateBuffer s)) a s)
        else Fault
    end.

(** [tft.pushImage(x, y, w, h, updateBuffer)] *)
Definition pushImage (x y w h : Z) : M unit :=
  fun s => Val tt (set_painted (painted s ++ [mkPaint x y w h (updateBuffer s)]) s).

(** [for (int i = lo; ...; i++) body], for [n] passes starting at [i]. *)
Fixpoint for_int (n : nat) (i : Z) (body : Z -> M unit) : M unit :=
  match n with
  | O => ret tt
  | S n' => body i ;;; for_int n' (int32 (i + 1)) body
  end.

(** ** [readExactBytes] *)

(** The [while] loop of [readExactBytes]; [fuel] bounds the number of passes
    through its body. *)
Fixpoint readExactBytes_loop (fuel : nat) (buffer : Ptr)
    (length timeout received : Z) : M Z :=
  m <- millis ;;
  if (received <? length) && (m <? timeout) then
    match fuel with
    | O => fun _ => Fuel
    | S fuel' =>
        a <- client_available ;;
        received' <- (if a
                      then b <- client_read ;;
                           store buffer received (uint8 b) ;;;
                           ret (uint32 (received + 1))
                      else ret received) ;;
        yield ;;;
        readExactBytes_loop fuel' buffer length timeout received'
    end
  else ret received.

(** [bool readExactBytes(WiFiClient& client, uint8_t* buffer, size_t length)].
    A pass of the loop takes a millisecond in this model, so the deadline
    allows at most 1000 passes. *)
Definition readExactBytes (buffer : Ptr) (length : Z) : M bool :=
  m <- millis ;;
  let timeout := uint32 (m + 1000) in
  received <- readExactBytes_loop 1000 buffer length timeout 0 ;;
  ret (received =? length).

(** ** [loop] *)

(** [while (!client.available() && millis() < timeout) delay(10);]
    [fuel] bounds the number of passes; [loop] gives it the 500 passes of
    ten milliseconds that lead up to its deadline. *)
Fixpoint wait_loop (fuel : nat) (timeout : Z) : M unit :=
  a <- client_available ;;
  m <- millis ;;
  if negb a && (m <? timeout) then
    match fuel with
    | O => fun _ => Fuel
    | S fuel' => delay 10 ;;; wait_loop fuel' timeout
    end
  else ret tt.

(** [while (client.available()) client.read();]
    [fuel] bounds the number of passes; [loop] gives it one pass per byte
    still in the queue. *)
Fixpoint drain_loop (fuel : nat) : M unit :=
  a <- client_available ;;
  if a then
    match fuel with
    | O => fun _ => Fuel
    | S fuel' => client_read ;;; drain_loop fuel'
    end
  else ret tt.

(** The byte-order loop of one row:
    [for (int j = 0; j < width; j++) { swap byteBuffer[j*2], byteBuffer[j*2+1] }] *)
Definition swap_body (byteBuffer : Ptr) (j : Z) : M unit :=
  temp <- load byteBuffer (int32 (j * 2)) ;;
  hi <- load byteBuffer (int32 (int32 (j * 2) + 1)) ;;
  store byteBuffer (int32 (j * 2)) hi ;;;
  store byteBuffer (int32 (int32 (j * 2) + 1)) temp.

(** The body of [for (int row = 0; row < height; row++)] for region [i]. *)
Definition row_body (i width : Z) (row : Z) : M unit :=
  let byteBuffer := BufPtr (2 * int32 (row * width)) in
  ok <- readExactBytes byteBuffer (uint32 (int32 (width * 2))) ;;
  if negb ok then client_stop ;;; exit (RowFailed row i)
  else for_int (Z.to_nat width) 0 (swap_body byteBuffer).

(** [(metaData[k] << 8) | metaData[k+1]] stored in a [uint16_t]. *)
Definition be16 (hi lo : Z) : Z := uint16 (int32 (Z.lor (Z.shiftl hi 8) lo)).

(** The test of "Validate dimensions". *)
Definition invalid_dimensions (x y width height : Z) : bool :=
  (int32 (x + width) >? 240) || (int32 (y + height) >? 240)
  || (width >? MAX_CHUNK_SIZE) || (height >? MAX_CHUNK_SIZE).

(** The body of [for (int i = 0; i < numRegions; i++)].  The local
    [metaData] starts out zeroed here; the sketch leaves it uninitialised and
    reads it only after all eight bytes are written.  [pixelCount] is
    computed and never used, and is left out. *)
Definition region_body (i : Z) : M unit :=
  (fun s => Val tt (set_metaData (replicate 8 0) s)) ;;;
  ok <- readExactBytes (MetaPtr 0) 8 ;;
  if negb ok then client_stop ;;; exit (MetadataFailed i)
  else
    m0 <- load (MetaPtr 0) 0 ;; m1 <- load (MetaPtr 0) 1 ;;
    m2 <- load (MetaPtr 0) 2 ;; m3 <- load (MetaPtr 0) 3 ;;
    m4 <- load (MetaPtr 0) 4 ;; m5 <- load (MetaPtr 0) 5 ;;
    m6 <- load (MetaPtr 0) 6 ;; m7 <- load (MetaPtr 0) 7 ;;
    let x := be16 m0 m1 in
    let y := be16 m2 m3 in
    let width := be16 m4 m5 in
    let height := be16 m6 m7 in
    if invalid_dimensions x y width height
    then client_stop ;;; exit (InvalidDimensions i)
    else
      for_int (Z.to_nat height) 0 (row_body i width) ;;;
      pushImage x y width height ;;;
      yield.

(** [void loop()].  It ends with [Val] after the acknowledgment, and with
    [Exit] at each early [return]. *)
Definition loop : M unit :=
  client <- server_accept ;;
  if negb client then exit NoClient
  else
    m <- millis ;;
    let timeout := uint32 (m + 5000) in
    wait_loop 500 timeout ;;;
    a <- client_available ;;
    if negb a then client_stop ;;; exit ClientTimeout
    else
      b <- client_read ;;
      let numRegions := uint8 b in
      if (numRegions =? 0) || (numRegions >? 100)
      then client_stop ;;; exit InvalidRegions
      else
        for_int (Z.to_nat numRegions) 0 region_body ;;;
        client_write OK_bytes ;;;
        delay 10 ;;;
        (fun s => drain_loop (length (inbox s)) s) ;;;
        client_stop.

(** ** Reading the result *)

(** The 16-bit value of pixel [k] of a byte image, little-endian. *)
Definition pixel (bytes : list Z) (k : nat) : Z :=
  bytes !!! (2 * k)%nat + 2 ^ 8 * bytes !!! (2 * k + 1)%nat.

(** The [pw * ph] pixels a paint call shows, row-major. *)
Definition pixels (p : Paint) : list Z :=
  map (pixel (pdata p)) (seq 0 (Z.to_nat (pw p * ph p))).

(** A device at rest: an open connection, a zeroed buffer. *)
Definition boot (t : Z) (q : list (Z * Z)) : State :=
  mkState t Open q [] (replicate 8 0) (replicate (Z.to_nat BUFFER_BYTES) 0) [] [].

(** All of [bs] available at time [t]. *)
Definition at_time (t : Z) (bs : list Z) : list (Z * Z) := map (pair t) bs.

Definition scenario : list Z :=
  [1; 0; 0; 0; 0; 0; 2; 0; 1; 0x00; 0xFF; 0x12; 0x34].

(** ** Notions for the statements: what a read leaves behind *)

(** The byte values of a piece of the stream, as [client.read()] gives them. *)
Definition wire (q : list (Z * Z)) : list Z := map (fun tb => uint8 (snd tb)) q.

(** [mem] with [bs] copied in from byte address [a] on. *)
Definition blit (mem : list Z) (a : Z) (bs : list Z) : list Z :=
  take (Z.to_nat a) mem ++ bs ++ drop (Z.to_nat a + length bs) mem.

(** The bytes of each 16-bit pixel exchanged. *)
Fixpoint swap_pairs (bs : list Z) : list Z :=
  match bs with
  | a :: b :: rest => b :: a :: swap_pairs rest
  | _ => bs
  end.

(** The array a pointer points into, and the offset. *)
Definition target (p : Ptr) (s : State) : list Z :=
  match p with MetaPtr _ => metaData s | BufPtr _ => updateBuffer s end.
Definition offset (p : Ptr) : Z :=
  match p with MetaPtr off => off | BufPtr off => off end.

(** What a run of [readExactBytes] into [p], from index [r0] up to index
    [r], has done to the state: it has taken [r - r0] bytes from the stream
    and put them at [p[r0 ..]], and nothing else but the clock has moved. *)
Definition reads (p : Ptr) (r0 : Z) (s : State) (r : Z) (s' : State) : Prop :=
  exists bs : list (Z * Z),
    inbox s = bs ++ inbox s' /\ r = r0 + Z.of_nat (length bs)
    /\ now s <= now s' /\ link s' = link s /\ sent s' = sent s
    /\ painted s' = painted s
    /\ target p s' = blit (target p s) (offset p + r0) (wire bs)
    /\ match p with
       | MetaPtr _ => updateBuffer s' = updateBuffer s /\ stores s' = stores s
       | BufPtr off =>
           metaData s' = metaData s
           /\ exists new, stores s' = new ++ stores s
                          /\ Forall (fun a => off + r0 <= a < off + r) new
       end.

(** What a call of [readExactBytes] leaves behind. *)
Definition read_result (p : Ptr) (len : Z) (s : State) (ok : bool) (s' : State)
  : Prop :=
  exists r,
    reads p 0 s r s' /\ 0 <= r <= len
    /\ (ok = true <-> r = len)
    /\ (ok = false -> uint32 (uint32 (now s) + 1000) <= uint32 (now s'))
    /\ now s' - now s <= 1000.

(** ** Weakest preconditions and the invariants of the loops *)

(** [wp m Q E s]: run from [s], [m] neither faults nor runs out of fuel; if
    it completes, [Q] holds of its value and final state; if it leaves [loop]
    early, [E] holds of the exit taken and the final state. *)
Definition wp {A} (m : M A) (Q : A -> State -> Prop)
    (E : Outcome -> State -> Prop) (s : State) : Prop :=
  match m s with
  | Val a s' => Q a s'
  | Exit o s' => E o s'
  | Fault => False
  | Fuel => False
  end.

(** Nothing but [updateBuffer] and its history differs. *)
Definition buffer_only (s s' : State) : Prop :=
  now s' = now s /\ link s' = link s /\ inbox s' = inbox s
  /\ sent s' = sent s /\ metaData s' = metaData s /\ painted s' = painted s.

(** The invariant of the byte-order loop after [j] passes over a row that
    held [row] at byte address [base]. *)
Definition swapped (U : list Z) (base : Z) (row : list Z) (s0 : State)
    (j : nat) (s : State) : Prop :=
  updateBuffer s
  = blit U base (swap_pairs (take (2 * j) row) ++ drop (2 * j) row)
  /\ buffer_only s0 s
  /\ exists new, stores s = new ++ stores s0
                 /\ Forall (fun a => base <= a < base + 2 * Z.of_nat j) new.

(** Byte address [a] lies in pixel [row * w + j] of one of the first [rows]
    rows of a region [w] pixels wide. *)
Definition in_rows (w rows : Z) (a : Z) : Prop :=
  exists row j k, 0 <= row < rows /\ 0 <= j < w /\ 0 <= k < 2
                  /\ a = 2 * (row * w + j) + k.

(** After [r] rows of a region [w] wide, started in [s0]. *)
Definition fill_inv (w : Z) (s0 : State) (r : nat) (s : State) : Prop :=
  exists bs : list (Z * Z),
    inbox s0 = bs ++ inbox s
    /\ Z.of_nat (length bs) = 2 * (Z.of_nat r * w)
    /\ updateBuffer s = blit (updateBuffer s0) 0 (swap_pairs (wire bs))
    /\ now s0 <= now s /\ link s = link s0 /\ sent s = sent s0
    /\ painted s = painted s0 /\ metaData s = metaData s0
    /\ exists new, stores s = new ++ stores s0
                   /\ Forall (in_rows w (Z.of_nat r)) new.

(** The connection of region [i] dropped because a row came short. *)
Definition row_failed (i w h : Z) (s0 : State) (o : Outcome) (s : State)
  : Prop :=
  exists r,
    o = RowFailed r i /\ 0 <= r < h
    /\ link s = Closed /\ sent s = sent s0 /\ painted s = painted s0
    /\ length (updateBuffer s) = length (updateBuffer s0)
    /\ (exists new, stores s = new ++ stores s0 /\ Forall (in_rows w h) new)
    /\ exists bs : list (Z * Z),
         inbox s0 = bs ++ inbox s /\ Z.of_nat (length bs) < 2 * (h * w).

(** ** Regions, batches and sessions *)

(** Field [k] of a header held in the bytes [m]: x, y, width, height for
    [k] = 0, 1, 2, 3. *)
Definition field (m : list Z) (k : nat) : Z :=
  be16 (m !!! (2 * k)%nat) (m !!! (2 * k + 1)%nat).

(** The paint call that ends a region whose header bytes are [m], made on
    the buffer [buf]. *)
Definition paint_of (m : list Z) (buf : list Z) : Paint :=
  mkPaint (field m 0) (field m 1) (field m 2) (field m 3) buf.

Definition rejects (m : list Z) : bool :=
  invalid_dimensions (field m 0) (field m 1) (field m 2) (field m 3).

(** The region was read whole and painted: [hdr] and [payload] are the
    pieces of the stream it took. *)
Definition region_done (s s' : State) (hdr payload : list (Z * Z)) : Prop :=
  inbox s = hdr ++ payload ++ inbox s'
  /\ length hdr = 8%nat /\ rejects (wire hdr) = false
  /\ Z.of_nat (length payload)
     = 2 * (field (wire hdr) 3 * field (wire hdr) 2)
  /\ updateBuffer s' = blit (updateBuffer s) 0 (swap_pairs (wire payload))
  /\ painted s' = painted s ++ [paint_of (wire hdr) (updateBuffer s')]
  /\ link s' = link s /\ sent s' = sent s /\ now s < now s'
  /\ exists new,
       stores s' = new ++ stores s
       /\ Forall (in_rows (field (wire hdr) 2) (field (wire hdr) 3)) new.

(** The eight bytes at the head of the stream, where a region starts. *)
Definition header (s : State) : list Z := wire (take 8 (inbox s)).

(** The connection was dropped in region [i]. *)
Definition region_aborted (i : Z) (s : State) (o : Outcome) (s' : State)
  : Prop :=
  link s' = Closed /\ sent s' = sent s /\ painted s' = painted s
  /\ length (updateBuffer s') = length (updateBuffer s)
  /\ (exists new, stores s' = new ++ stores s
                  /\ Forall (fun a => 0 <= a < BUFFER_BYTES) new
                  /\ Forall (in_rows (field (header s) 2)
                                     (field (header s) 3)) new)
  /\ ((o = MetadataFailed i
       /\ exists bs, inbox s = bs ++ inbox s' /\ (length bs < 8)%nat)
      \/ (o = InvalidDimensions i
          /\ exists hdr, inbox s = hdr ++ inbox s' /\ length hdr = 8%nat
                         /\ rejects (wire hdr) = true)
      \/ (exists row hdr bs,
            o = RowFailed row i
            /\ inbox s = hdr ++ bs ++ inbox s' /\ length hdr = 8%nat
            /\ rejects (wire hdr) = false
            /\ 0 <= row < field (wire hdr) 3
            /\ Z.of_nat (length bs)
               < 2 * (field (wire hdr) 3 * field (wire hdr) 2))).

(** A region as the display is to show it: its rectangle and the bytes of
    its pixels, row-major. *)
Record Region := mkRegion {
  rx : Z; ry : Z; rw : Z; rh : Z;
  rbytes : list Z
}.

(** One region at the head of [bs]: eight header bytes, then
    [width * height] pixels of two bytes, each pixel with its bytes
    exchanged. *)
Definition decode_region (bs : list Z) : option (Region * list Z) :=
  let m := take 8 bs in
  let rest := drop 8 bs in
  let n := Z.to_nat (2 * (field m 3 * field m 2)) in
  if (length bs <? 8)%nat then None
  else if rejects m then None
  else if (length rest <? n)%nat then None
  else Some (mkRegion (field m 0) (field m 1) (field m 2) (field m 3)
                      (swap_pairs (take n rest)),
             drop n rest).

Fixpoint decode_regions (n : nat) (bs : list Z)
  : option (list Region * list Z) :=
  match n with
  | O => Some ([], bs)
  | S n' =>
      match decode_region bs with
      | None => None
      | Some (r, rest) =>
          match decode_regions n' rest with
          | None => None
          | Some (rs, rest') => Some (r :: rs, rest')
          end
      end
  end.

(** What a paint call shows: its rectangle and the first
    [width * height] pixels of the buffer. *)
Definition shown (p : Paint) : Region :=
  mkRegion (px p) (py p) (pw p) (ph p)
           (take (Z.to_nat (2 * (ph p * pw p))) (pdata p)).

(** The rectangle of a paint call fits the display and the buffer. *)
Definition paint_ok (p : Paint) : Prop :=
  0 <= px p /\ 0 <= py p /\ 0 <= pw p /\ 0 <= ph p
  /\ px p + pw p <= 240 /\ py p + ph p <= 240
  /\ pw p <= MAX_CHUNK_SIZE /\ ph p <= MAX_CHUNK_SIZE.

(** After [k] regions of a batch started in [s0]. *)
Definition batch_inv (s0 : State) (k : nat) (s : State) : Prop :=
  exists ps,
    painted s = painted s0 ++ ps /\ length ps = k /\ Forall paint_ok ps
    /\ (forall n,
          decode_regions (k + n) (wire (inbox s0))
          = match decode_regions n (wire (inbox s)) with
            | Some (rs, rest) => Some (map shown ps ++ rs, rest)
            | None => None
            end)
    /\ link s = link s0 /\ sent s = sent s0 /\ now s0 <= now s
    /\ length (updateBuffer s) = length (updateBuffer s0)
    /\ exists new, stores s = new ++ stores s0
                   /\ Forall (fun a => 0 <= a < BUFFER_BYTES) new.

(** The batch of [n] regions started in [s0] was cut short. *)
Definition batch_aborted (n : nat) (s0 : State) (o : Outcome) (s : State)
  : Prop :=
  exists (i : nat) ps,
    (i < n)%nat
    /\ (o = MetadataFailed (Z.of_nat i) \/ o = InvalidDimensions (Z.of_nat i)
        \/ exists row, o = RowFailed row (Z.of_nat i))
    /\ painted s = painted s0 ++ ps /\ length ps = i /\ Forall paint_ok ps
    /\ link s = Closed /\ sent s = sent s0
    /\ length (updateBuffer s) = length (updateBuffer s0)
    /\ exists new, stores s = new ++ stores s0
                   /\ Forall (fun a => 0 <= a < BUFFER_BYTES) new.

(** The session ran to its end: the client declared [uint8 b] regions, all
    of them were painted, and ["OK"] was written. *)
Definition session_acked (s s' : State) : Prop :=
  exists t b q ps rest,
    inbox s = (t, b) :: q /\ 1 <= uint8 b <= 100
    /\ painted s' = painted s ++ ps /\ Z.of_nat (length ps) = uint8 b
    /\ Forall paint_ok ps
    /\ decode_regions (Z.to_nat (uint8 b)) (wire q) = Some (map shown ps, rest)
    /\ sent s' = sent s ++ OK_bytes /\ link s' = Closed
    /\ length (updateBuffer s') = length (updateBuffer s)
    /\ exists new, stores s' = new ++ stores s
                   /\ Forall (fun a => 0 <= a < BUFFER_BYTES) new.

(** Why a session ended early, and how many regions were painted first. *)
Definition abort_cause (s : State) (o : Outcome) (s' : State)
    (ps : list Paint) : Prop :=
  (o = ClientTimeout /\ ps = [] /\ inbox s' = inbox s /\ arrived s' = false)
  \/ (o = InvalidRegions /\ ps = []
      /\ exists t b q, inbox s = (t, b) :: q /\ inbox s' = q
                       /\ (uint8 b = 0 \/ uint8 b > 100))
  \/ (exists t b q i,
        inbox s = (t, b) :: q /\ 1 <= uint8 b <= 100
        /\ 0 <= i < uint8 b /\ Z.of_nat (length ps) = i
        /\ (o = MetadataFailed i \/ o = InvalidDimensions i
            \/ exists row, o = RowFailed row i)).

(** The session was cut short. *)
Definition session_aborted (s : State) (o : Outcome) (s' : State) : Prop :=
  sent s' = sent s /\ link s' = Closed
  /\ length (updateBuffer s') = length (updateBuffer s)
  /\ (exists new, stores s' = new ++ stores s
                  /\ Forall (fun a => 0 <= a < BUFFER_BYTES) new)
  /\ exists ps, painted s' = painted s ++ ps /\ Forall paint_ok ps
                /\ abort_cause s o s' ps.

(** The device state has the buffer the sketch declares. *)
Definition well_formed (s : State) : Prop :=
  Z.of_nat (length (updateBuffer s)) = BUFFER_BYTES.

(** The state a run ends in, when it ends. *)
Definition final {A} (r : Res A) : option State :=
  match r with
  | Val _ s => Some s
  | Exit _ s => Some s
  | Fault => None
  | Fuel => None
  end.

(** What [region_body] does once the eight header bytes are in. *)
Definition after_header (i : Z) (s : State) : M unit :=
  let m := header s in
  if rejects m then client_stop ;;; exit (InvalidDimensions i)
  else
    for_int (Z.to_nat (field m 3)) 0 (row_body i (field m 2)) ;;;
    pushImage (field m 0) (field m 1) (field m 2) (field m 3) ;;;
    yield.

(** The state a run ends in, or [d] when it does not end. *)
Definition state_after {A} (r : Res A) (d : State) : State :=
  match final r with Some s => s | None => d end.

(** The client declared a valid count and that many regions were painted. *)
Definition all_regions_painted (s s' : State) : Prop :=
  exists t b q ps,
    inbox s = (t, b) :: q /\ 1 <= uint8 b <= 100
    /\ painted s' = painted s ++ ps /\ Z.of_nat (length ps) = uint8 b.

(** The early [return]s of a session with a client. *)
Definition failure (o : Outcome) : Prop :=
  o = ClientTimeout \/ o = InvalidRegions
  \/ exists i, o = MetadataFailed i \/ o = InvalidDimensions i
               \/ exists row, o = RowFailed row i.

(** One row: [2 * w] bytes leave the stream and land, exchanged pairwise,
    at pixel offset [row * w]. *)
Definition row_filled (w row : Z) (s s' : State) : Prop :=
  exists bs : list (Z * Z),
    inbox s = bs ++ inbox s' /\ Z.of_nat (length bs) = w * 2
    /\ updateBuffer s'
       = blit (updateBuffer s) (2 * (row * w)) (swap_pairs (wire bs)).

(** ** Arrival times *)

(** Can [n] more bytes of [q] be taken before [deadline], by a reader that
    polls once a millisecond from time [t] on?  Each byte is taken at the
    first poll at or after its arrival. *)
Fixpoint in_time (n : nat) (t deadline : Z) (q : list (Z * Z)) : bool :=
  match n with
  | O => true
  | S n' =>
      match q with
      | [] => false
      | (ta, _) :: q' =>
          (Z.max t ta <? deadline) && in_time n' (Z.max t ta + 1) deadline q'
      end
  end.

(** The deadline of a call made in [s], on the scale of [now]: 1000 ms
    ahead, or behind [now s] when [millis() + 1000] wraps around. *)
Definition deadline (s : State) : Z :=
  now s + (uint32 (uint32 (now s) + 1000) - uint32 (now s)).

(** ** Inputs for the examples *)

(** A region whose header asks for x = 230, width = 32 on a 240-wide
    display, all of its bytes already in. *)
Definition out_of_bounds_region : State :=
  boot 0 (at_time 0 [0; 230; 0; 0; 0; 32; 0; 1]).

Definition out_of_bounds_header_read : State :=
  state_after (readExactBytes (MetaPtr 0) 8
                 (set_metaData (replicate 8 0) out_of_bounds_region))
              out_of_bounds_region.


(** The region of [scenario], its bytes all in. *)
Definition scenario_region : State := boot 0 (at_time 0 (tail scenario)).

Definition scenario_region_done : State :=
  state_after (region_body 0 scenario_region) scenario_region.

Definition scenario_session : State := boot 0 (at_time 0 scenario).

Definition scenario_session_done : State :=
  state_after (loop scenario_session) scenario_session.

(** A region of width 0 and height 3 at the origin, its header all in,
    followed by a byte of the next region. *)
Definition empty_region : State :=
  boot 0 (at_time 0 [0; 0; 0; 0; 0; 0; 0; 3; 7]).

Definition empty_region_header_read : State :=
  state_after (readExactBytes (MetaPtr 0) 8
                 (set_metaData (replicate 8 0) empty_region))
              empty_region.

(** Four bytes wanted, the last of them two seconds away. *)
Definition slow_client : State :=
  boot 0 [(0, 1); (0, 2); (5, 3); (2000, 4)].

(** ** How long a run lasts *)

(** If [m] ends when run from [s], it has taken between 0 and [bound]
    milliseconds. *)
Definition lasts {A} (m : M A) (bound : Z) (s : State) : Prop :=
  match m s with
  | Val _ s' => now s <= now s' <= now s + bound
  | Exit _ s' => now s <= now s' <= now s + bound
  | Fault => True
  | Fuel => True
  end.

(** The longest a region can take: a second for its header, a second for
    each of at most [MAX_CHUNK_SIZE] rows, and the [yield()] that ends it. *)
Definition REGION_MS : Z := 1000 + MAX_CHUNK_SIZE * 1000 + 1.

(** The longest a session can take: the wait for the first byte, a hundred
    regions, and the [delay(10)] after the acknowledgment. *)
Definition SESSION_MS : Z := 5000 + 100 * REGION_MS + 10.

(** ** Pieces of [loop] *)

(** [loop] from the test that follows the wait for the first byte. *)
Definition after_wait : M unit :=
  a <- client_available ;;
  if negb a then client_stop ;;; exit ClientTimeout
  else
    b <- client_read ;;
    let numRegions := uint8 b in
    if (numRegions =? 0) || (numRegions >? 100)
    then client_stop ;;; exit InvalidRegions
    else
      for_int (Z.to_nat numRegions) 0 region_body ;;;
      client_write OK_bytes ;;;
      delay 10 ;;;
      (fun s => drain_loop (length (inbox s)) s) ;;;
      client_stop.


(** The end of a session whose regions are all painted. *)
Definition finish : M unit :=
  client_write OK_bytes ;;;
  delay 10 ;;;
  (fun s => drain_loop (length (inbox s)) s) ;;;
  client_stop.

(** [o] is the failure of region [i]. *)
Definition fails_in (o : Outcome) (i : Z) : Prop :=
  o = MetadataFailed i \/ o = InvalidDimensions i
  \/ exists row, o = RowFailed row i.

(** Every byte still in the stream has arrived. *)
Definition delivered (s : State) : Prop :=
  Forall (fun tb => fst tb <= now s) (inbox s).

(** ** [setup] *)











(** ** Inputs for the examples of the further properties *)


(** Two regions declared: the region of [scenario], then a header that
    does not fit the display. *)
Definition second_region_bad : State :=
  boot 0 (at_time 0 ([2; 0; 0; 0; 0; 0; 2; 0; 1; 0x00; 0xFF; 0x12; 0x34]
                     ++ [0; 230; 0; 0; 0; 32; 0; 1])).

Definition second_region_bad_end : State :=
  state_after (loop second_region_bad) second_region_bad.




(** * The proofs *)

(** ** Facts on machine integers and on [blit] *)

Lemma uint8_range z : 0 <= uint8 z < 256.
Proof. unfold uint8. apply Z.mod_pos_bound. lia. Qed.

Lemma uint8_idem z : uint8 (uint8 z) = uint8 z.
Proof. unfold uint8. apply Z.mod_mod. lia. Qed.

Lemma uint32_small z : 0 <= z < 2 ^ 32 -> uint32 z = z.
Proof. intros. unfold uint32. apply Z.mod_small. lia. Qed.

Lemma uint32_range z : 0 <= uint32 z < 2 ^ 32.
Proof. unfold uint32. apply Z.mod_pos_bound. lia. Qed.

Lemma int32_small z : - 2 ^ 31 <= z < 2 ^ 31 -> int32 z = z.
Proof. intros. unfold int32. rewrite Z.mod_small; lia. Qed.

Lemma uint16_small z : 0 <= z < 2 ^ 16 -> uint16 z = z.
Proof. intros. unfold uint16. apply Z.mod_small. lia. Qed.

Lemma blit_nil mem a : blit mem a [] = mem.
Proof.
  unfold blit. simpl. rewrite Nat.add_0_r. apply take_drop.
Qed.

Lemma length_blit mem a bs :
  0 <= a -> a + Z.of_nat (length bs) <= Z.of_nat (length mem) ->
  length (blit mem a bs) = length mem.
Proof.
  intros. unfold blit. rewrite !length_app, length_take, length_drop. lia.
Qed.

Lemma blit_snoc mem a bs v :
  0 <= a -> a + Z.of_nat (length bs) < Z.of_nat (length mem) ->
  <[Z.to_nat (a + Z.of_nat (length bs)) := v]> (blit mem a bs)
  = blit mem a (bs ++ [v]).
Proof.
  intros Ha Hlt. unfold blit.
  assert (Hn : Z.to_nat (a + Z.of_nat (length bs))
               = (length (take (Z.to_nat a) mem) + length bs)%nat).
  { rewrite length_take. lia. }
  rewrite Hn, insert_app_r.
  replace (length bs) with (length bs + 0)%nat at 1 by lia.
  rewrite insert_app_r.
  rewrite <- (app_assoc bs [v]). f_equal. f_equal.
  rewrite length_app. simpl.
  destruct (drop (Z.to_nat a + length bs) mem) as [|d ds] eqn:E.
  - apply (f_equal length) in E. rewrite length_drop in E. simpl in E. lia.
  - simpl. f_equal.
    replace (Z.to_nat a + (length bs + 1))%nat
      with ((Z.to_nat a + length bs) + 1)%nat by lia.
    rewrite <- (drop_drop mem), E. reflexivity.
Qed.

(** ** The polling loop of [readExactBytes] *)

Lemma reads_refl p r s : reads p r s r s.
Proof.
  exists []. simpl. rewrite blit_nil.
  repeat split; try lia.
  destruct p; repeat split. exists []. split; [reflexivity | constructor].
Qed.

Lemma reads_length p r0 s0 r s :
  0 <= offset p -> 0 <= r0 ->
  offset p + r <= Z.of_nat (length (target p s0)) ->
  reads p r0 s0 r s -> length (target p s) = length (target p s0).
Proof.
  intros Ho Hr0 Hcap (bs & _ & -> & _ & _ & _ & _ & Ht & _).
  rewrite Ht. apply length_blit; unfold wire; rewrite ?length_map; lia.
Qed.

(** A pass of the loop that finds nothing to read. *)
Lemma reads_idle p r0 s0 r s :
  reads p r0 s0 r s -> reads p r0 s0 r (set_now (now s + 1) s).
Proof.
  intros (bs & Hq & Hr & Hn & Hl & Hs & Hp & Ht & Hm).
  exists bs. destruct p; simpl in *; repeat split; try tauto; try lia.
Qed.

(** A pass of the loop that reads one byte. *)
Lemma reads_byte p r0 s0 r s t b q :
  0 <= offset p -> 0 <= r0 ->
  offset p + r < Z.of_nat (length (target p s0)) ->
  reads p r0 s0 r s -> inbox s = (t, b) :: q ->
  exists s1,
    store p r (uint8 (uint8 b)) (set_inbox q s) = Val tt s1
    /\ reads p r0 s0 (r + 1) (set_now (now s1 + 1) s1).
Proof.
  intros Ho Hr0 Hcap Hrd Hq.
  pose proof (reads_length p r0 s0 r s Ho Hr0 ltac:(lia) Hrd) as Hlen.
  destruct Hrd as (bs & Hq0 & Hr & Hn & Hl & Hs & Hp & Ht & Hm).
  assert (Hw : wire (bs ++ [(t, b)]) = wire bs ++ [uint8 (uint8 b)]).
  { unfold wire. rewrite map_app. simpl. now rewrite uint8_idem. }
  assert (Hin : 0 <= offset p + r0
                /\ offset p + r0 + Z.of_nat (length (wire bs))
                   < Z.of_nat (length (target p s0))).
  { unfold wire. rewrite length_map. lia. }
  assert (Hidx : offset p + r
                 = offset p + r0 + Z.of_nat (length (wire bs))).
  { unfold wire. rewrite length_map. lia. }
  destruct p as [off|off]; simpl in *.
  - assert (Hc : (0 <=? off + r) && (off + r <? Z.of_nat (length (metaData s)))
                 = true).
    { rewrite Hlen. apply andb_true_iff. split; [apply Z.leb_le|apply Z.ltb_lt]; lia. }
    eexists. unfold store. simpl. rewrite Hc. split; [reflexivity|].
    exists (bs ++ [(t, b)]). simpl.
    rewrite Hq0, Hq, <- app_assoc, length_app, Hw. simpl.
    repeat split; try tauto; try lia.
    rewrite Ht, Hidx. apply blit_snoc; lia.
  - assert (Hc : (0 <=? off + r)
                 && (off + r <? Z.of_nat (length (updateBuffer s))) = true).
    { rewrite Hlen. apply andb_true_iff. split; [apply Z.leb_le|apply Z.ltb_lt]; lia. }
    eexists. unfold store. simpl. rewrite Hc. split; [reflexivity|].
    exists (bs ++ [(t, b)]). simpl.
    rewrite Hq0, Hq, <- app_assoc, length_app, Hw. simpl.
    destruct Hm as (Hmd & new & Hst & Hall).
    repeat split; try tauto; try lia.
    + rewrite Ht, Hidx. apply blit_snoc; lia.
    + exists ((off + r) :: new). rewrite Hst. split; [reflexivity|].
      constructor; [lia|].
      eapply Forall_impl; [exact Hall|]. simpl. intros; lia.
Qed.

(** The loop always ends: it runs at most [timeout - millis()] passes; it
    leaves the state as [reads] says; and when it stops short of [length]
    the deadline has passed. *)
Lemma readExactBytes_loop_spec fuel p len timeout r0 s0 :
  forall r s,
    0 <= offset p -> 0 <= r0 <= r -> r <= len < 2 ^ 32 ->
    offset p + len <= Z.of_nat (length (target p s0)) ->
    timeout < 2 ^ 32 ->
    timeout - uint32 (now s) <= Z.of_nat fuel ->
    reads p r0 s0 r s ->
    exists r' s',
      readExactBytes_loop fuel p len timeout r s = Val r' s'
      /\ reads p r0 s0 r' s'
      /\ r <= r' <= len
      /\ (r' < len -> timeout <= uint32 (now s'))
      /\ now s' - now s <= Z.max 0 (timeout - uint32 (now s)).
Proof.
  induction fuel as [|fuel IH]; intros r s Ho Hr Hlen Hcap Ht Hfuel Hrd.
  - simpl. unfold bind, millis.
    destruct (r <? len) eqn:E1; destruct (uint32 (now s) <? timeout) eqn:E2;
      simpl; try (apply Z.ltb_lt in E2; simpl in Hfuel; lia);
      exists r, s; (split; [reflexivity|]); (split; [assumption|]);
      apply Z.ltb_ge in E2; repeat split; lia.
  - simpl. unfold bind at 1, millis.
    destruct ((r <? len) && (uint32 (now s) <? timeout)) eqn:E.
    2:{ exists r, s. split; [reflexivity|]. split; [assumption|].
        apply andb_false_iff in E.
        repeat split; lia. }
    apply andb_true_iff in E. destruct E as [E1 E2].
    apply Z.ltb_lt in E1. apply Z.ltb_lt in E2.
    pose proof (uint32_range (now s)) as Hm.
    assert (Hnext : forall s1, now s1 = now s ->
              uint32 (now s1 + 1) = uint32 (now s) + 1).
    { intros s1 ->. unfold uint32 in *.
      rewrite <- Zplus_mod_idemp_l. apply Z.mod_small. lia. }
    unfold bind at 1, client_available, arrived.
    destruct (inbox s) as [|[t b] q] eqn:Hq.
    + (* nothing in flight *)
      unfold bind at 1 2, ret, yield.
      destruct (IH r (set_now (now s + 1) s)) as (r' & s' & Hrun & Hrd' & Hr' & Hto & Hel);
        try assumption.
      { simpl. rewrite (Hnext s eq_refl). lia. }
      { now apply reads_idle. }
      exists r', s'. split; [exact Hrun|]. split; [exact Hrd'|].
      simpl in Hel. rewrite (Hnext s eq_refl) in Hel.
      repeat split; try lia; auto.
    + destruct (t <=? now s) eqn:Hta.
      * (* a byte is there *)
        unfold bind at 1 2 3, client_read. rewrite Hq, Hta.
        destruct (reads_byte p r0 s0 r s t b q) as (s1 & Hst & Hrd1);
          try assumption; try lia.
        unfold bind at 1. rewrite Hst. unfold ret, yield.
        assert (Hn1 : now s1 = now s).
        { clear - Hst. unfold store in Hst.
          destruct p; simpl in Hst;
            match type of Hst with
            | (if ?c then _ else _) = _ => destruct c; [|discriminate]
            end; injection Hst as <-; reflexivity. }
        rewrite (uint32_small (r + 1)) by lia.
        destruct (IH (r + 1) (set_now (now s1 + 1) s1))
          as (r' & s' & Hrun & Hrd' & Hr' & Hto & Hel); try assumption; try lia.
        { simpl. rewrite (Hnext s1 Hn1). lia. }
        exists r', s'. split; [exact Hrun|]. split; [exact Hrd'|].
        simpl in Hel. rewrite (Hnext s1 Hn1), Hn1 in Hel.
        repeat split; try lia; auto.
      * (* the next byte has not arrived yet *)
        unfold bind at 1 2, ret, yield.
        destruct (IH r (set_now (now s + 1) s)) as (r' & s' & Hrun & Hrd' & Hr' & Hto & Hel);
          try assumption.
        { simpl. rewrite (Hnext s eq_refl). lia. }
        { now apply reads_idle. }
        exists r', s'. split; [exact Hrun|]. split; [exact Hrd'|].
        simpl in Hel. rewrite (Hnext s eq_refl) in Hel.
        repeat split; try lia; auto.
Qed.

Lemma readExactBytes_spec p len s :
  0 <= offset p -> 0 <= len < 2 ^ 32 ->
  offset p + len <= Z.of_nat (length (target p s)) ->
  exists ok s', readExactBytes p len s = Val ok s' /\ read_result p len s ok s'.
Proof.
  intros Ho Hlen Hcap.
  unfold readExactBytes, bind at 1, millis.
  set (timeout := uint32 (uint32 (now s) + 1000)).
  pose proof (uint32_range (now s)) as Hm.
  pose proof (uint32_range (uint32 (now s) + 1000)) as Hto. fold timeout in Hto.
  assert (Hgap : timeout - uint32 (now s) <= 1000).
  { subst timeout. unfold uint32 at 1.
    destruct (Z_lt_ge_dec (uint32 (now s) + 1000) (2 ^ 32)).
    - rewrite Z.mod_small; lia.
    - replace (uint32 (now s) + 1000)
        with ((uint32 (now s) + 1000 - 2 ^ 32) + 1 * 2 ^ 32) by lia.
      rewrite Z_mod_plus_full, Z.mod_small; lia. }
  destruct (readExactBytes_loop_spec 1000 p len timeout 0 s 0 s)
    as (r & s' & Hrun & Hrd & Hr & Hstop & Hel); try lia.
  { apply reads_refl. }
  unfold bind. rewrite Hrun. unfold ret.
  exists (r =? len), s'. split; [reflexivity|].
  exists r. split; [exact Hrd|]. split; [lia|]. split; [apply Z.eqb_eq|].
  split; [|lia].
  intros Hf. apply Z.eqb_neq in Hf. apply Hstop. lia.
Qed.

(** ** More on [blit] and [swap_pairs] *)

Lemma lookup_blit mem a bs i :
  0 <= a -> (i < length bs)%nat ->
  a + Z.of_nat (length bs) <= Z.of_nat (length mem) ->
  blit mem a bs !! (Z.to_nat a + i)%nat = bs !! i.
Proof.
  intros Ha Hi Hcap. unfold blit.
  rewrite lookup_app_r; rewrite length_take; [|lia].
  replace (Z.to_nat a + i - Z.to_nat a `min` length mem)%nat with i by lia.
  apply lookup_app_l. exact Hi.
Qed.

Lemma insert_blit mem a bs i v :
  0 <= a -> (i < length bs)%nat ->
  a + Z.of_nat (length bs) <= Z.of_nat (length mem) ->
  <[(Z.to_nat a + i)%nat := v]> (blit mem a bs) = blit mem a (<[i := v]> bs).
Proof.
  intros Ha Hi Hcap. unfold blit.
  replace (Z.to_nat a) with (length (take (Z.to_nat a) mem)) at 1
    by (rewrite length_take; lia).
  rewrite insert_app_r, insert_app_l, length_insert by exact Hi.
  reflexivity.
Qed.

Lemma blit_app mem a bs cs :
  0 <= a ->
  a + Z.of_nat (length bs) + Z.of_nat (length cs) <= Z.of_nat (length mem) ->
  blit (blit mem a bs) (a + Z.of_nat (length bs)) cs = blit mem a (bs ++ cs).
Proof.
  intros Ha Hcap. unfold blit.
  replace (Z.to_nat (a + Z.of_nat (length bs)))
    with (length (take (Z.to_nat a) mem ++ bs))
    by (rewrite length_app, length_take; lia).
  rewrite (app_assoc (take _ mem) bs), take_app_length.
  rewrite <- !app_assoc. f_equal. f_equal. f_equal.
  rewrite length_app, length_take.
  replace (Z.to_nat a `min` length mem + length bs + length cs)%nat
    with (length (take (Z.to_nat a) mem ++ bs) + length cs)%nat
    by (rewrite length_app, length_take; lia).
  rewrite app_assoc, drop_app_add.
  rewrite (length_app bs cs). rewrite drop_drop. f_equal. lia.
Qed.

Lemma length_swap_pairs bs : length (swap_pairs bs) = length bs.
Proof.
  induction bs as [bs IH] using (induction_ltof1 _ (@length Z)).
  destruct bs as [|a [|b rest]]; try reflexivity.
  simpl. rewrite IH; [reflexivity|]. unfold ltof. simpl. lia.
Qed.

Lemma swap_pairs_app bs cs :
  Nat.Even (length bs) -> swap_pairs (bs ++ cs) = swap_pairs bs ++ swap_pairs cs.
Proof.
  induction bs as [bs IH] using (induction_ltof1 _ (@length Z)).
  intros [k Hk].
  destruct bs as [|a [|b rest]]; try reflexivity.
  - simpl in Hk. lia.
  - simpl. rewrite IH; [reflexivity| |].
    + unfold ltof. simpl. lia.
    + exists (k - 1)%nat. simpl in Hk. lia.
Qed.

(** ** Rules of weakest preconditions *)

Lemma wp_ret {A} (a : A) Q E s : Q a s -> wp (ret a) Q E s.
Proof. exact (fun H => H). Qed.

Lemma wp_exit {A} o (Q : A -> State -> Prop) (E : Outcome -> State -> Prop) s :
  E o s -> wp (exit o) Q E s.
Proof. exact (fun H => H). Qed.

Lemma wp_bind {A B} (m : M A) (k : A -> M B) Q E s :
  wp m (fun a s' => wp (k a) Q E s') E s -> wp (bind m k) Q E s.
Proof.
  unfold wp, bind. destruct (m s); auto.
Qed.

Lemma wp_mono {A} (m : M A) (Q Q' : A -> State -> Prop)
    (E E' : Outcome -> State -> Prop) s :
  wp m Q E s ->
  (forall a s', Q a s' -> Q' a s') -> (forall o s', E o s' -> E' o s') ->
  wp m Q' E' s.
Proof.
  unfold wp. destruct (m s); auto.
Qed.

Lemma wp_val {A} (m : M A) a s' Q E s : m s = Val a s' -> Q a s' -> wp m Q E s.
Proof. unfold wp. now intros ->. Qed.

(** The rule of the counted [for] loop, with an invariant on the number of
    passes made. *)
Lemma wp_for_int (I : nat -> State -> Prop) E body :
  forall n k0 s,
    Z.of_nat (k0 + n) < 2 ^ 31 ->
    I k0 s ->
    (forall k s1, (k0 <= k < k0 + n)%nat -> I k s1 ->
       wp (body (Z.of_nat k)) (fun _ s2 => I (S k) s2) E s1) ->
    wp (for_int n (Z.of_nat k0) body) (fun _ s' => I (k0 + n)%nat s') E s.
Proof.
  induction n as [|n IH]; intros k0 s Hb H0 Hstep.
  - simpl. apply wp_ret. now rewrite Nat.add_0_r.
  - simpl. apply wp_bind.
    eapply wp_mono; [apply (Hstep k0 s); [lia|exact H0] | | auto].
    intros u s1 H1. simpl in H1.
    rewrite int32_small by lia.
    replace (Z.of_nat k0 + 1) with (Z.of_nat (S k0)) by lia.
    replace (k0 + S n)%nat with (S k0 + n)%nat by lia.
    apply IH; [lia|exact H1|].
    intros k s2 Hk. apply Hstep. lia.
Qed.

(** ** The byte-order loop *)

Lemma load_blit U base bs (i : nat) v s :
  0 <= base -> base + Z.of_nat (length bs) <= Z.of_nat (length U) ->
  updateBuffer s = blit U base bs -> bs !! i = Some v ->
  load (BufPtr base) (Z.of_nat i) s = Val v s.
Proof.
  intros Hb Hcap HU Hi. unfold load.
  destruct (base + Z.of_nat i <? 0) eqn:E; [apply Z.ltb_lt in E; lia|].
  replace (Z.to_nat (base + Z.of_nat i)) with (Z.to_nat base + i)%nat by lia.
  rewrite HU, lookup_blit, Hi; try assumption; try reflexivity.
  now apply lookup_lt_Some in Hi.
Qed.

Lemma store_blit U base bs (i : nat) v s :
  0 <= base -> base + Z.of_nat (length bs) <= Z.of_nat (length U) ->
  updateBuffer s = blit U base bs -> (i < length bs)%nat ->
  store (BufPtr base) (Z.of_nat i) v s
  = Val tt (set_updateBuffer (blit U base (<[i := v]> bs))
                             (base + Z.of_nat i) s).
Proof.
  intros Hb Hcap HU Hi. unfold store.
  rewrite HU, length_blit by lia.
  destruct ((0 <=? base + Z.of_nat i)
            && (base + Z.of_nat i <? Z.of_nat (length U))) eqn:E.
  2:{ apply andb_false_iff in E. lia. }
  replace (Z.to_nat (base + Z.of_nat i)) with (Z.to_nat base + i)%nat by lia.
  now rewrite insert_blit.
Qed.

Lemma swap_body_spec U base row s0 j s :
  0 <= base -> base + Z.of_nat (length row) <= Z.of_nat (length U) ->
  (2 * j + 2 <= length row)%nat -> Z.of_nat j < 2 ^ 29 ->
  swapped U base row s0 j s ->
  wp (swap_body (BufPtr base) (Z.of_nat j))
     (fun _ s' => swapped U base row s0 (S j) s') (fun _ _ => False) s.
Proof.
  intros Hb Hcap Hj Hsmall (HU & Hfr & new & Hst & Hall).
  set (X := swap_pairs (take (2 * j) row)) in *.
  assert (HX : length X = (2 * j)%nat).
  { subst X. rewrite length_swap_pairs, length_take. lia. }
  destruct (drop (2 * j) row) as [|a [|b rest]] eqn:Hd;
    try (apply (f_equal length) in Hd; rewrite length_drop in Hd;
         simpl in Hd; lia).
  assert (Hlen : length (X ++ a :: b :: rest) = length row).
  { rewrite length_app, HX. simpl.
    apply (f_equal length) in Hd. rewrite length_drop in Hd. simpl in Hd. lia. }
  unfold swap_body.
  rewrite (int32_small (Z.of_nat j * 2)) by lia.
  rewrite (int32_small (Z.of_nat j * 2 + 1)) by lia.
  replace (Z.of_nat j * 2) with (Z.of_nat (2 * j)) by lia.
  replace (Z.of_nat (2 * j) + 1) with (Z.of_nat (2 * j + 1)) by lia.
  apply wp_bind.
  eapply wp_val.
  { eapply (load_blit U base _ (2 * j) a); [lia| |exact HU|].
    - rewrite Hlen. lia.
    - rewrite lookup_app_r, HX, Nat.sub_diag by lia. reflexivity. }
  apply wp_bind. eapply wp_val.
  { eapply (load_blit U base _ (2 * j + 1) b); [lia| |exact HU|].
    - rewrite Hlen. lia.
    - rewrite lookup_app_r, HX by lia.
      replace (2 * j + 1 - 2 * j)%nat with 1%nat by lia. reflexivity. }
  apply wp_bind. eapply wp_val.
  { eapply (store_blit U base _ (2 * j)); [lia| |exact HU|]; rewrite Hlen; lia. }
  eapply wp_val.
  { eapply (store_blit U base _ (2 * j + 1)); [lia| |reflexivity|];
      rewrite length_insert, Hlen; lia. }
  destruct Hfr as (F1 & F2 & F3 & F4 & F5 & F6).
  split; [|split].
  - cbn [updateBuffer set_updateBuffer]. f_equal.
    replace (2 * S j)%nat with (2 * j + 2)%nat by lia.
    rewrite <- (take_take_drop row (2 * j) 2), Hd.
    rewrite swap_pairs_app by (rewrite length_take; exists j; lia).
    fold X. rewrite <- (drop_drop row), Hd.
    cbn [take drop swap_pairs].
    replace (2 * j + 1)%nat with (length X + 1)%nat by lia.
    replace (2 * j)%nat with (length X + 0)%nat by lia.
    rewrite !insert_app_r, <- app_assoc. reflexivity.
  - repeat split; simpl; assumption.
  - exists ((base + Z.of_nat (2 * j + 1)) :: (base + Z.of_nat (2 * j)) :: new).
    simpl. rewrite Hst. split; [reflexivity|].
    repeat constructor; try lia.
    eapply Forall_impl; [exact Hall|]. simpl. intros. lia.
Qed.

Lemma swap_loop_spec U base row s :
  0 <= base -> base + Z.of_nat (length row) <= Z.of_nat (length U) ->
  Nat.Even (length row) -> Z.of_nat (length row) < 2 ^ 29 ->
  updateBuffer s = blit U base row ->
  wp (for_int (length row / 2) 0 (swap_body (BufPtr base)))
     (fun _ s' =>
        updateBuffer s' = blit U base (swap_pairs row)
        /\ buffer_only s s'
        /\ exists new, stores s' = new ++ stores s
             /\ Forall (fun a => base <= a < base + Z.of_nat (length row)) new)
     (fun _ _ => False) s.
Proof.
  intros Hb Hcap [k Hk] Hsmall HU.
  assert (Hn : (length row / 2 = k)%nat).
  { rewrite Hk. rewrite Nat.mul_comm. apply Nat.div_mul. lia. }
  rewrite Hn.
  eapply wp_mono.
  - apply (wp_for_int (swapped U base row s) (fun _ _ => False)
             (swap_body (BufPtr base)) k 0%nat s).
    + lia.
    + split; [|split].
      * simpl. exact HU.
      * repeat split.
      * exists []. split; [reflexivity|constructor].
    + intros j s1 Hj Hinv. apply swap_body_spec; try assumption; lia.
  - intros u s' (HU' & Hfr & new & Hst & Hall).
    replace (2 * (0 + k))%nat with (length row) in HU' by lia.
    rewrite firstn_all, drop_all, app_nil_r in HU'.
    split; [exact HU'|]. split; [exact Hfr|].
    exists new. split; [exact Hst|].
    eapply Forall_impl; [exact Hall|]. simpl. intros. lia.
  - auto.
Qed.

(** ** Filling the buffer row by row *)

Lemma in_rows_row w r a :
  0 <= r -> 2 * (r * w) <= a < 2 * (r * w) + 2 * w -> in_rows w (r + 1) a.
Proof.
  intros Hr Ha.
  exists r, ((a - 2 * (r * w)) / 2), ((a - 2 * (r * w)) mod 2).
  pose proof (Z.div_mod (a - 2 * (r * w)) 2 ltac:(lia)).
  pose proof (Z.mod_pos_bound (a - 2 * (r * w)) 2 ltac:(lia)).
  repeat split; try lia.
Qed.

Lemma in_rows_mono w r r' a : r <= r' -> in_rows w r a -> in_rows w r' a.
Proof.
  intros Hle (row & j & k & H1 & H2 & H3 & H4).
  exists row, j, k. repeat split; lia.
Qed.

Lemma in_rows_bound w h a :
  w <= MAX_CHUNK_SIZE -> h <= MAX_CHUNK_SIZE -> in_rows w h a ->
  0 <= a < BUFFER_BYTES.
Proof.
  unfold BUFFER_BYTES, MAX_CHUNK_SIZE.
  intros Hw Hh (row & j & k & H1 & H2 & H3 & ->).
  assert (0 <= row * w) by (apply Z.mul_nonneg_nonneg; lia).
  assert (row * w <= 31 * 32) by (apply Z.mul_le_mono_nonneg; lia).
  lia.
Qed.

Lemma length_wire q : length (wire q) = length q.
Proof. apply length_map. Qed.

Lemma wire_app q1 q2 : wire (q1 ++ q2) = wire q1 ++ wire q2.
Proof. apply map_app. Qed.

Lemma row_body_spec i w h s0 r s :
  0 <= w <= MAX_CHUNK_SIZE -> 0 <= h <= MAX_CHUNK_SIZE ->
  2 * (h * w) <= Z.of_nat (length (updateBuffer s0)) ->
  Z.of_nat r < h ->
  fill_inv w s0 r s ->
  wp (row_body i w (Z.of_nat r)) (fun _ s' => fill_inv w s0 (S r) s')
     (row_failed i w h s0) s.
Proof.
  unfold MAX_CHUNK_SIZE.
  intros Hw Hh Hcap Hr (bs & Hq & Hlen & HU & Hn & Hl & Hs & Hp & Hm & new & Hst & Hall).
  assert (Hrw : 0 <= Z.of_nat r * w <= 31 * 32) by nia.
  assert (HL : length (updateBuffer s) = length (updateBuffer s0)).
  { rewrite HU. apply length_blit; [lia|].
    rewrite length_swap_pairs, length_wire. nia. }
  unfold row_body.
  rewrite (int32_small (Z.of_nat r * w)) by lia.
  rewrite (int32_small (w * 2)) by lia.
  rewrite (uint32_small (w * 2)) by lia.
  set (base := 2 * (Z.of_nat r * w)).
  destruct (readExactBytes_spec (BufPtr base) (w * 2) s)
    as (ok & s1 & Hrun & k & Hrd & Hk & Hok & Hdead & Hel);
    [simpl; lia | lia | simpl; rewrite HL; nia |].
  destruct Hrd as (bs1 & Hq1 & Hk1 & Hn1 & Hl1 & Hs1 & Hp1 & Ht1 & Hm1 & new1 & Hst1 & Hall1).
  simpl in Ht1, Hk1. rewrite Z.add_0_r in Ht1.
  assert (Hnew1 : Forall (in_rows w (Z.of_nat (S r))) new1).
  { eapply Forall_impl; [exact Hall1|]. simpl. intros a Ha.
    replace (Z.of_nat (S r)) with (Z.of_nat r + 1) by lia.
    apply in_rows_row; [lia|]. subst base. lia. }
  assert (Hnew : Forall (in_rows w (Z.of_nat (S r))) new).
  { eapply Forall_impl; [exact Hall|]. intros a.
    apply in_rows_mono. lia. }
  apply wp_bind. eapply wp_val; [exact Hrun|].
  destruct ok; simpl negb; cbv iota.
  - (* the row is complete *)
    assert (Hk2 : k = w * 2) by (apply Hok; reflexivity).
    assert (Hlen1 : Z.of_nat (length (wire bs1)) = w * 2)
      by (rewrite length_wire; lia).
    replace (Z.to_nat w) with (length (wire bs1) / 2)%nat.
    2:{ replace (length (wire bs1)) with (Z.to_nat w * 2)%nat by lia.
        apply Nat.div_mul. lia. }
    eapply wp_mono.
    + apply (swap_loop_spec (updateBuffer s) base (wire bs1) s1).
      * subst base. lia.
      * rewrite HL, Hlen1. subst base. nia.
      * exists (Z.to_nat w). lia.
      * lia.
      * exact Ht1.
    + intros u s2 (HU2 & (F1 & F2 & F3 & F4 & F5 & F6) & new2 & Hst2 & Hall2).
      exists (bs ++ bs1). rewrite F3, <- app_assoc, <- Hq1.
      split; [exact Hq|]. split; [rewrite length_app; nia|].
      split.
      { rewrite HU2, HU, wire_app, swap_pairs_app.
        2:{ rewrite length_wire. exists (Z.to_nat (Z.of_nat r * w)). lia. }
        subst base.
        replace (2 * (Z.of_nat r * w))
          with (0 + Z.of_nat (length (swap_pairs (wire bs))))
          by (rewrite length_swap_pairs, length_wire; lia).
        apply blit_app; [lia|].
        rewrite !length_swap_pairs, !length_wire. nia. }
      repeat split; try congruence; try lia.
      exists (new2 ++ new1 ++ new).
      split; [rewrite Hst2, Hst1, Hst, !app_assoc; reflexivity|].
      rewrite !Forall_app. repeat split; try assumption.
      eapply Forall_impl; [exact Hall2|]. simpl. intros a Ha.
      replace (Z.of_nat (S r)) with (Z.of_nat r + 1) by lia.
      apply in_rows_row; [lia|]. subst base. lia.
    + intros o s' [].
  - (* the deadline passed first *)
    assert (Hk2 : k < w * 2).
    { destruct (Z.eq_dec k (w * 2)) as [e|ne]; [|lia].
      apply Hok in e. discriminate. }
    apply wp_bind. eapply wp_val; [reflexivity|].
    apply wp_exit.
    exists (Z.of_nat r). simpl.
    split; [reflexivity|]. split; [lia|]. split; [reflexivity|].
    split; [congruence|]. split; [congruence|].
    split.
    { rewrite Ht1. rewrite length_blit; [exact HL|subst base; lia|].
      rewrite HL, length_wire. subst base. nia. }
    split.
    { exists (new1 ++ new). rewrite Hst1, Hst, app_assoc.
      split; [reflexivity|]. rewrite Forall_app.
      split; (eapply Forall_impl; [eassumption|]); intros a;
        apply in_rows_mono; lia. }
    exists (bs ++ bs1). rewrite <- app_assoc, <- Hq1.
    split; [exact Hq|]. rewrite length_app. nia.
Qed.

Lemma rows_spec i w h s0 :
  0 <= w <= MAX_CHUNK_SIZE -> 0 <= h <= MAX_CHUNK_SIZE ->
  2 * (h * w) <= Z.of_nat (length (updateBuffer s0)) ->
  wp (for_int (Z.to_nat h) 0 (row_body i w))
     (fun _ s' => fill_inv w s0 (Z.to_nat h) s') (row_failed i w h s0) s0.
Proof.
  intros Hw Hh Hcap.
  apply (wp_for_int (fill_inv w s0) (row_failed i w h s0) (row_body i w)
           (Z.to_nat h) 0%nat s0).
  - unfold MAX_CHUNK_SIZE in *. lia.
  - exists []. simpl. rewrite blit_nil.
    repeat split; try lia.
    exists []. split; [reflexivity|constructor].
  - intros r s1 Hr Hinv. apply row_body_spec; try assumption. lia.
Qed.

(** ** One region *)

Lemma be16_range hi lo : 0 <= be16 hi lo < 2 ^ 16.
Proof. unfold be16, uint16. apply Z.mod_pos_bound. lia. Qed.

Lemma lor_shiftl_bytes hi lo :
  0 <= hi < 256 -> 0 <= lo < 256 -> Z.lor (Z.shiftl hi 8) lo = 256 * hi + lo.
Proof.
  intros Hhi Hlo.
  assert (Hdisj : Z.land (Z.shiftl hi 8) lo = 0).
  { apply Z.bits_inj'. intros n Hn.
    rewrite Z.land_spec, Z.bits_0.
    destruct (Z_lt_ge_dec n 8).
    - rewrite Z.shiftl_spec_low by lia. reflexivity.
    - rewrite (Z.bits_above_log2 lo n), andb_false_r; [reflexivity|lia|].
      destruct (Z.eq_dec lo 0) as [->|]; [simpl; lia|].
      assert (Z.log2 lo < 8) by (apply Z.log2_lt_pow2; lia). lia. }
  rewrite <- Z.lxor_lor, <- Z.add_nocarry_lxor by exact Hdisj.
  rewrite Z.shiftl_mul_pow2 by lia. lia.
Qed.

(** A header field is the big-endian value of its two bytes. *)
Lemma be16_bytes hi lo :
  0 <= hi < 256 -> 0 <= lo < 256 -> be16 hi lo = 256 * hi + lo.
Proof.
  intros Hhi Hlo. unfold be16.
  rewrite lor_shiftl_bytes by assumption.
  rewrite int32_small, uint16_small; lia.
Qed.

(** The test on the dimensions compares the exact sums: in [int] the sum of
    two [uint16_t] does not wrap. *)
Lemma invalid_dimensions_spec x y w h :
  0 <= x < 2 ^ 16 -> 0 <= y < 2 ^ 16 -> 0 <= w < 2 ^ 16 -> 0 <= h < 2 ^ 16 ->
  invalid_dimensions x y w h = true
  <-> (x + w > 240 \/ y + h > 240 \/ w > 32 \/ h > 32).
Proof.
  intros Hx Hy Hw Hh. unfold invalid_dimensions, MAX_CHUNK_SIZE.
  rewrite (int32_small (x + w)), (int32_small (y + h)) by lia.
  rewrite !orb_true_iff. lia.
Qed.

Lemma invalid_dimensions_false x y w h :
  0 <= x < 2 ^ 16 -> 0 <= y < 2 ^ 16 -> 0 <= w < 2 ^ 16 -> 0 <= h < 2 ^ 16 ->
  invalid_dimensions x y w h = false
  <-> (x + w <= 240 /\ y + h <= 240 /\ w <= 32 /\ h <= 32).
Proof.
  intros Hx Hy Hw Hh.
  pose proof (invalid_dimensions_spec x y w h Hx Hy Hw Hh) as H.
  destruct (invalid_dimensions x y w h).
  - split; [discriminate|]. intros. assert (true = true) as E by reflexivity.
    apply H in E. lia.
  - split; [|reflexivity]. intros _.
    destruct (Z_le_gt_dec (x + w) 240); destruct (Z_le_gt_dec (y + h) 240);
      destruct (Z_le_gt_dec w 32); destruct (Z_le_gt_dec h 32);
      try lia;
      (assert (false = true) as E by (apply H; lia); discriminate).
Qed.

Lemma field_range m k : 0 <= field m k < 2 ^ 16.
Proof. apply be16_range. Qed.

Lemma load_meta m (k : nat) s :
  metaData s = m -> (k < length m)%nat ->
  load (MetaPtr 0) (Z.of_nat k) s = Val (m !!! k) s.
Proof.
  intros Hm Hk. unfold load.
  destruct (0 + Z.of_nat k <? 0) eqn:E; [apply Z.ltb_lt in E; lia|].
  replace (Z.to_nat (0 + Z.of_nat k)) with k by lia.
  rewrite Hm, (list_lookup_lookup_total_lt m k Hk). reflexivity.
Qed.

Lemma blit_whole mem bs : length bs = length mem -> blit mem 0 bs = bs.
Proof.
  intros Hl. unfold blit. simpl. rewrite Hl, drop_all. apply app_nil_r.
Qed.

Lemma region_body_spec i s :
  BUFFER_BYTES <= Z.of_nat (length (updateBuffer s)) ->
  wp (region_body i)
     (fun _ s' => exists hdr payload, region_done s s' hdr payload)
     (region_aborted i s) s.
Proof.
  intros Hcap. unfold region_body.
  apply wp_bind. eapply wp_val; [reflexivity|].
  set (sa := set_metaData (replicate 8 0) s).
  destruct (readExactBytes_spec (MetaPtr 0) 8 sa)
    as (ok & s1 & Hrun & k & Hrd & Hk & Hok & Hdead & Hel);
    [simpl; lia | lia | simpl; lia |].
  apply wp_bind. eapply wp_val; [exact Hrun|].
  destruct Hrd as (hdr & Hq & Hk1 & Hn & Hl & Hs & Hp & Ht & HU & Hst).
  simpl in Hq, Hk1, Hn, Hl, Hs, Hp, Ht, HU, Hst.
  destruct ok; simpl negb; cbv iota.
  - (* the header is complete *)
    assert (Hlen : length hdr = 8%nat).
    { assert (k = 8) by (apply Hok; reflexivity). lia. }
    set (m := wire hdr) in *.
    assert (Hm : metaData s1 = m).
    { rewrite Ht. apply blit_whole. subst m. now rewrite length_wire. }
    assert (Hml : length m = 8%nat) by (subst m; now rewrite length_wire).
    do 8 (apply wp_bind; eapply wp_val;
          [first [ apply (load_meta m 0%nat) | apply (load_meta m 1%nat)
                 | apply (load_meta m 2%nat) | apply (load_meta m 3%nat)
                 | apply (load_meta m 4%nat) | apply (load_meta m 5%nat)
                 | apply (load_meta m 6%nat) | apply (load_meta m 7%nat) ];
           [exact Hm | lia] |]).
    change (be16 (m !!! 0%nat) (m !!! 1%nat)) with (field m 0).
    change (be16 (m !!! 2%nat) (m !!! 3%nat)) with (field m 1).
    change (be16 (m !!! 4%nat) (m !!! 5%nat)) with (field m 2).
    change (be16 (m !!! 6%nat) (m !!! 7%nat)) with (field m 3).
    fold (rejects m).
    pose proof (field_range m 0) as Hx. pose proof (field_range m 1) as Hy.
    pose proof (field_range m 2) as Hw. pose proof (field_range m 3) as Hh.
    destruct (rejects m) eqn:Hrej.
    + (* "Invalid region dimensions" *)
      apply wp_bind. eapply wp_val; [reflexivity|]. apply wp_exit.
      split; [reflexivity|]. simpl.
      split; [exact Hs|]. split; [exact Hp|]. split; [now rewrite HU|].
      split.
      { exists []. rewrite Hst. repeat split; constructor. }
      right. left. split; [reflexivity|].
      exists hdr. repeat split; assumption.
    + apply invalid_dimensions_false in Hrej; try assumption.
      apply wp_bind. eapply wp_mono.
      * apply (rows_spec i (field m 2) (field m 3) s1);
          unfold BUFFER_BYTES, MAX_CHUNK_SIZE in *; try lia.
        assert (field m 3 * field m 2 <= 32 * 32)
          by (apply Z.mul_le_mono_nonneg; lia).
        rewrite HU. lia.
      * intros u s2 (bs & Hq2 & Hlen2 & HU2 & Hn2 & Hl2 & Hs2 & Hp2 & Hm2
                     & new & Hst2 & Hall2).
        apply wp_bind. eapply wp_val; [reflexivity|].
        eapply wp_val; [reflexivity|].
        exists hdr, bs. unfold region_done. fold m. simpl.
        rewrite Z2Nat.id in Hlen2, Hall2 by lia.
        split; [rewrite Hq, Hq2; reflexivity|].
        split; [exact Hlen|].
        split; [apply invalid_dimensions_false; assumption|].
        split; [exact Hlen2|].
        split; [now rewrite HU2, HU|].
        split; [rewrite Hp2, Hp; reflexivity|].
        split; [congruence|]. split; [congruence|]. split; [lia|].
        exists new. split; [congruence | exact Hall2].
      * (* "Failed to read row" *)
        intros o s2 (r & -> & Hr & Hl2 & Hs2 & Hp2 & HL2 & (new & Hst2 & Hall2)
                     & bs & Hq2 & Hlen2).
        split; [exact Hl2|]. split; [congruence|]. split; [congruence|].
        split; [congruence|].
        split.
        { exists new. split; [congruence|]. split.
          - eapply Forall_impl; [exact Hall2|]. intros a.
            apply in_rows_bound; unfold MAX_CHUNK_SIZE; lia.
          - unfold header. rewrite Hq, take_app_length' by (symmetry; exact Hlen).
            exact Hall2. }
        right. right. exists r, hdr, bs. fold m.
        split; [reflexivity|]. split; [rewrite Hq, Hq2; reflexivity|].
        split; [exact Hlen|].
        split; [apply invalid_dimensions_false; assumption|].
        split; [exact Hr | exact Hlen2].
  - (* "Failed to read region metadata" *)
    assert (Hk2 : k < 8).
    { destruct (Z.eq_dec k 8) as [e|ne]; [|lia]. apply Hok in e. discriminate. }
    apply wp_bind. eapply wp_val; [reflexivity|]. apply wp_exit.
    split; [reflexivity|]. simpl.
    split; [exact Hs|]. split; [exact Hp|]. split; [now rewrite HU|].
    split.
    { exists []. rewrite Hst. repeat split; constructor. }
    left. split; [reflexivity|]. exists hdr. split; [exact Hq|lia].
Qed.

(** ** Agreement with the wire format *)

Lemma take_blit_0 mem bs :
  Z.of_nat (length bs) <= Z.of_nat (length mem) ->
  take (length bs) (blit mem 0 bs) = bs.
Proof.
  intros. unfold blit. simpl. apply take_app_length.
Qed.

Lemma region_done_decode s s' hdr payload :
  BUFFER_BYTES <= Z.of_nat (length (updateBuffer s)) ->
  region_done s s' hdr payload ->
  exists p,
    painted s' = painted s ++ [p] /\ paint_ok p
    /\ decode_region (wire (inbox s)) = Some (shown p, wire (inbox s')).
Proof.
  intros Hcap (Hq & Hlen & Hrej & Hpl & HU & Hp & _).
  set (m := wire hdr) in *.
  pose proof (field_range m 0) as Hx. pose proof (field_range m 1) as Hy.
  pose proof (field_range m 2) as Hw. pose proof (field_range m 3) as Hh.
  pose proof Hrej as Hv. apply invalid_dimensions_false in Hv; try assumption.
  exists (paint_of m (updateBuffer s')).
  split; [exact Hp|]. split.
  { unfold paint_ok, paint_of, MAX_CHUNK_SIZE. simpl. lia. }
  assert (Hm : take 8 (wire (inbox s)) = m).
  { rewrite Hq, wire_app. fold m. apply take_app_length'.
    subst m. now rewrite length_wire. }
  assert (Hd : drop 8 (wire (inbox s)) = wire payload ++ wire (inbox s')).
  { rewrite Hq, !wire_app. fold m. apply drop_app_length'.
    subst m. now rewrite length_wire. }
  assert (Hn : Z.to_nat (2 * (field m 3 * field m 2)) = length (wire payload)).
  { rewrite length_wire. lia. }
  unfold decode_region. rewrite Hm, Hd, Hrej, Hn.
  destruct (length (wire (inbox s)) <? 8)%nat eqn:E1.
  { apply Nat.ltb_lt in E1. rewrite Hq, !wire_app, !length_app in E1.
    fold m in E1. subst m. rewrite length_wire in E1. lia. }
  destruct (length (wire payload ++ wire (inbox s')) <? length (wire payload))%nat
    eqn:E2.
  { apply Nat.ltb_lt in E2. rewrite length_app in E2. lia. }
  rewrite take_app_length, drop_app_length.
  unfold shown, paint_of. simpl. f_equal. f_equal. f_equal.
  rewrite Hn, HU.
  rewrite <- (length_swap_pairs (wire payload)).
  symmetry. apply take_blit_0.
  rewrite length_swap_pairs, length_wire.
  assert (field m 3 * field m 2 <= 32 * 32)
    by (apply Z.mul_le_mono_nonneg; lia).
  unfold BUFFER_BYTES, MAX_CHUNK_SIZE in Hcap. lia.
Qed.

(** ** The batch of regions *)

Lemma batch_spec n s0 :
  (n <= 255)%nat ->
  BUFFER_BYTES <= Z.of_nat (length (updateBuffer s0)) ->
  wp (for_int n 0 region_body) (fun _ s' => batch_inv s0 n s')
     (batch_aborted n s0) s0.
Proof.
  intros Hn Hcap.
  apply (wp_for_int (batch_inv s0) (batch_aborted n s0) region_body n 0%nat s0).
  - lia.
  - exists []. rewrite app_nil_r.
    split; [reflexivity|]. split; [reflexivity|]. split; [constructor|].
    split.
    { intros k. simpl. destruct (decode_regions k (wire (inbox s0))) as [[rs rest]|];
        reflexivity. }
    repeat split; try lia.
    exists []. split; [reflexivity|constructor].
  - intros k s Hk (ps & Hp & Hlen & Hok & Hdec & Hl & Hs & Hnow & HL & new & Hst & Hall).
    eapply wp_mono.
    + apply region_body_spec. rewrite HL. exact Hcap.
    + intros u s1 (hdr & payload & Hdone).
      destruct (region_done_decode s s1 hdr payload ltac:(rewrite HL; exact Hcap) Hdone)
        as (p & Hp1 & Hok1 & Hdec1).
      destruct Hdone as (_ & _ & Hrej & Hpl & HU & _ & Hl1 & Hs1 & Hn1 & new1 & Hst1 & Hall1).
      exists (ps ++ [p]).
      split; [rewrite Hp1, Hp, app_assoc; reflexivity|].
      split; [rewrite length_app; simpl; lia|].
      split; [apply Forall_app; split; [exact Hok|constructor; [exact Hok1|constructor]]|].
      split.
      { intros j. replace (S k + j)%nat with (k + S j)%nat by lia.
        rewrite Hdec. simpl. rewrite Hdec1.
        destruct (decode_regions j (wire (inbox s1))) as [[rs rest]|];
          [|reflexivity].
        rewrite map_app, <- app_assoc. reflexivity. }
      split; [congruence|]. split; [congruence|]. split; [lia|].
      split.
      { rewrite HU, length_blit; [exact HL|lia|].
        rewrite length_swap_pairs, length_wire.
        destruct Hok1 as (_ & _ & Hw0 & Hh0 & _ & _ & Hw1 & Hh1).
        pose proof (field_range (wire hdr) 2). pose proof (field_range (wire hdr) 3).
        apply invalid_dimensions_false in Hrej; try apply field_range.
        assert (field (wire hdr) 3 * field (wire hdr) 2 <= 32 * 32)
          by (apply Z.mul_le_mono_nonneg; lia).
        unfold BUFFER_BYTES, MAX_CHUNK_SIZE in Hcap. lia. }
      exists (new1 ++ new). rewrite Hst1, Hst, app_assoc.
      split; [reflexivity|]. apply Forall_app. split; [|exact Hall].
      eapply Forall_impl; [exact Hall1|]. intros a.
      apply invalid_dimensions_false in Hrej; try apply field_range.
      apply in_rows_bound; unfold MAX_CHUNK_SIZE; lia.
    + intros o s1 (Hl1 & Hs1 & Hp1 & HL1 & (new1 & Hst1 & Hall1 & _) & Hwhy).
      exists k, ps.
      split; [lia|]. split.
      { destruct Hwhy as [[-> _]|[[-> _]|(row & hdr & bs & -> & _)]]; eauto. }
      split; [congruence|]. split; [exact Hlen|]. split; [exact Hok|].
      split; [exact Hl1|]. split; [congruence|]. split; [congruence|].
      exists (new1 ++ new). rewrite Hst1, Hst, app_assoc.
      split; [reflexivity|]. apply Forall_app. split; assumption.
Qed.

(** ** The wait for the first byte, and the final drain *)

Lemma uint32_add_small z d :
  0 <= d -> uint32 z + d < 2 ^ 32 -> uint32 (z + d) = uint32 z + d.
Proof.
  intros Hd Hlt. pose proof (uint32_range z). unfold uint32 in *.
  rewrite <- Zplus_mod_idemp_l. apply Z.mod_small. lia.
Qed.

(** A deadline [d] milliseconds ahead is either that far ahead of
    [millis()], or it has wrapped around and lies behind it. *)
Lemma deadline_cases z d :
  0 < d < 2 ^ 32 ->
  uint32 (uint32 z + d) = uint32 z + d \/ uint32 (uint32 z + d) < uint32 z.
Proof.
  intros Hd. pose proof (uint32_range z) as Hm.
  destruct (Z_lt_ge_dec (uint32 z + d) (2 ^ 32)).
  - left. apply uint32_small. lia.
  - right. unfold uint32 at 1.
    replace (uint32 z + d) with ((uint32 z + d - 2 ^ 32) + 1 * 2 ^ 32) by lia.
    rewrite Z_mod_plus_full, Z.mod_small; lia.
Qed.

(** The wait ends within [10 * fuel] milliseconds when the deadline is a
    whole number of [delay(10)] away (or already behind); it moves nothing
    but the clock; and it ends with no byte only when the deadline has
    passed. *)
Lemma wait_loop_spec fuel timeout :
  forall s,
    timeout < 2 ^ 32 ->
    (timeout <= uint32 (now s)
     \/ exists j, 0 <= j <= Z.of_nat fuel /\ timeout = uint32 (now s) + 10 * j) ->
    exists t',
      wait_loop fuel timeout s = Val tt (set_now t' s)
      /\ now s <= t' <= now s + 10 * Z.of_nat fuel
      /\ (arrived (set_now t' s) = false -> timeout <= uint32 t').
Proof.
  induction fuel as [|fuel IH]; intros s Hto Hgap.
  - exists (now s). simpl. unfold bind, client_available, millis.
    destruct (negb (arrived s) && (uint32 (now s) <? timeout)) eqn:E.
    { apply andb_true_iff in E. destruct E as [_ E]. apply Z.ltb_lt in E.
      destruct Hgap as [?|(j & Hj & ->)]; lia. }
    destruct s; simpl in *. split; [reflexivity|]. split; [lia|].
    unfold arrived in *. simpl in *. intros Ha. rewrite Ha in E. simpl in E.
    apply Z.ltb_ge in E. exact E.
  - simpl. unfold bind at 1 2, client_available, millis.
    destruct (negb (arrived s) && (uint32 (now s) <? timeout)) eqn:E.
    + apply andb_true_iff in E. destruct E as [Ea E]. apply Z.ltb_lt in E.
      destruct Hgap as [?|(j & Hj & Hgap)]; [lia|].
      unfold bind, delay.
      destruct (IH (set_now (now s + 10) s) Hto) as (t' & Hrun & Ht' & Hdead).
      { right. exists (j - 1). simpl.
        rewrite uint32_add_small by lia. lia. }
      exists t'. split; [exact Hrun|]. simpl in Ht'. split; [lia|exact Hdead].
    + exists (now s). destruct s; simpl in *. split; [reflexivity|]. split; [lia|].
      unfold arrived in *. simpl in *. intros Ha. rewrite Ha in E. simpl in E.
      apply Z.ltb_ge in E. exact E.
Qed.

(** The drain takes arrived bytes off the stream and touches nothing else. *)
Lemma drain_loop_spec fuel :
  forall s,
    (length (inbox s) <= fuel)%nat ->
    exists q pre,
      drain_loop fuel s = Val tt (set_inbox q s) /\ inbox s = pre ++ q.
Proof.
  induction fuel as [|fuel IH]; intros s Hlen.
  - exists (inbox s), []. simpl. unfold bind, client_available, arrived.
    destruct (inbox s) eqn:E; [|simpl in Hlen; lia].
    destruct s; simpl in *. subst. split; reflexivity.
  - simpl. unfold bind at 1, client_available, arrived.
    destruct (inbox s) as [|[t b] q] eqn:E.
    + exists [], []. destruct s; simpl in *. subst. split; reflexivity.
    + destruct (t <=? now s) eqn:Ht.
      * unfold bind, client_read. rewrite E, Ht.
        destruct (IH (set_inbox q s)) as (q' & pre & Hrun & Hq).
        { simpl in *. lia. }
        exists q', ((t, b) :: pre). split; [exact Hrun|].
        simpl in Hq. rewrite Hq. reflexivity.
      * exists ((t, b) :: q), []. destruct s; simpl in *. subst.
        split; reflexivity.
Qed.

(** ** The whole session *)

Lemma loop_no_client s : link s <> Open -> loop s = Exit NoClient s.
Proof.
  intros H. unfold loop, bind, server_accept.
  destruct (link s); [reflexivity|congruence|reflexivity].
Qed.

Lemma loop_spec s :
  link s = Open ->
  BUFFER_BYTES <= Z.of_nat (length (updateBuffer s)) ->
  wp loop (fun _ s' => session_acked s s') (session_aborted s) s.
Proof.
  intros Hopen Hcap. unfold loop.
  apply wp_bind. eapply wp_val; [reflexivity|].
  unfold server_accept. rewrite Hopen. simpl negb. cbv iota.
  apply wp_bind. eapply wp_val; [reflexivity|].
  set (timeout := uint32 (uint32 (now s) + 5000)).
  pose proof (uint32_range (now s)) as Hm.
  pose proof (uint32_range (uint32 (now s) + 5000)) as Hto. fold timeout in Hto.
  destruct (wait_loop_spec 500 timeout s) as (t' & Hrun & Ht' & Hdead); [lia| |].
  { destruct (deadline_cases (now s) 5000 ltac:(lia)) as [E|E];
      fold timeout in E; [right; exists 500|left]; lia. }
  apply wp_bind. eapply wp_val; [exact Hrun|].
  set (s1 := set_now t' s) in *.
  apply wp_bind. eapply wp_val; [reflexivity|].
  destruct (arrived s1) eqn:Harr; simpl negb; cbv iota.
  2:{ (* "Client timeout" *)
      apply wp_bind. eapply wp_val; [reflexivity|]. apply wp_exit.
      split; [reflexivity|]. split; [reflexivity|]. split; [reflexivity|].
      split; [exists []; split; [reflexivity|constructor]|].
      exists []. split; [symmetry; apply app_nil_r|]. split; [constructor|].
      left. repeat split. exact Harr. }
  unfold arrived in Harr.
  destruct (inbox s1) as [|[t b] q] eqn:Hq; [discriminate|].
  assert (Hq0 : inbox s = (t, b) :: q) by exact Hq.
  apply wp_bind. eapply wp_val.
  { unfold client_read. rewrite Hq, Harr. reflexivity. }
  rewrite uint8_idem.
  set (s2 := set_inbox q s1).
  pose proof (uint8_range b) as Hb.
  destruct ((uint8 b =? 0) || (uint8 b >? 100)) eqn:Hbad.
  - (* "Invalid number of regions" *)
    apply wp_bind. eapply wp_val; [reflexivity|]. apply wp_exit.
    split; [reflexivity|]. split; [reflexivity|]. split; [reflexivity|].
    split; [exists []; split; [reflexivity|constructor]|].
    exists []. split; [symmetry; apply app_nil_r|]. split; [constructor|].
    right. left. split; [reflexivity|]. split; [reflexivity|].
    exists t, b, q. split; [exact Hq0|]. split; [reflexivity|].
    apply orb_true_iff in Hbad. lia.
  - apply orb_false_iff in Hbad.
    assert (Hn : 1 <= uint8 b <= 100) by lia.
    apply wp_bind. eapply wp_mono.
    + apply (batch_spec (Z.to_nat (uint8 b)) s2); [lia|exact Hcap].
    + intros u s3 (ps & Hp & Hlen & Hok & Hdec & Hl & Hs & Hnow & HL & new & Hst & Hall).
      apply wp_bind. eapply wp_val; [reflexivity|].
      apply wp_bind. eapply wp_val; [reflexivity|].
      match goal with
      | |- wp _ _ _ ?sx => set (s4 := sx)
      end.
      destruct (drain_loop_spec (length (inbox s4)) s4 (le_n _))
        as (q' & pre & Hdrain & _).
      apply wp_bind. eapply wp_val; [exact Hdrain|].
      eapply wp_val; [reflexivity|].
      exists t, b, q, ps, (wire (inbox s3)).
      split; [exact Hq0|]. split; [exact Hn|].
      split; [exact Hp|]. split; [lia|]. split; [exact Hok|].
      split.
      { specialize (Hdec 0%nat). rewrite Nat.add_0_r in Hdec.
        simpl in Hdec. rewrite app_nil_r in Hdec. exact Hdec. }
      split; [simpl; rewrite Hs; reflexivity|]. split; [reflexivity|].
      split; [exact HL|]. exists new. split; [exact Hst|exact Hall].
    + intros o s3 (i & ps & Hi & Ho & Hp & Hlen & Hok & Hl & Hs & HL & new & Hst & Hall).
      split; [exact Hs|]. split; [exact Hl|]. split; [exact HL|].
      split; [exists new; split; assumption|].
      exists ps. split; [exact Hp|]. split; [exact Hok|].
      right. right. exists t, b, q, (Z.of_nat i).
      split; [exact Hq0|]. split; [exact Hn|]. split; [lia|]. split; [lia|].
      exact Ho.
Qed.

(** Every run of [loop] ends, in one of three ways. *)
Lemma loop_cases s :
  well_formed s ->
  match loop s with
  | Val _ s' => link s = Open /\ session_acked s s'
  | Exit o s' =>
      (o = NoClient /\ s' = s /\ link s <> Open)
      \/ (link s = Open /\ session_aborted s o s')
  | Fault => False
  | Fuel => False
  end.
Proof.
  intros Hwf. destruct (link s) eqn:Hl.
  - rewrite loop_no_client by congruence. left. repeat split. congruence.
  - pose proof (loop_spec s Hl ltac:(unfold well_formed in Hwf; lia)) as H.
    unfold wp in H. destruct (loop s); auto.
  - rewrite loop_no_client by congruence. left. repeat split. congruence.
Qed.

(** ** The properties of the protocol *)

(** C1. Whatever the client sends, every [tft.pushImage] call of a session
    has a rectangle with [x + width <= 240], [y + height <= 240],
    [width <= 32] and [height <= 32], the sums taken in the integers: the
    session ends, and the calls it has added all satisfy [paint_ok]. *)
Theorem paint_calls_within_bounds (s : State) :
  well_formed s ->
  exists s' ps,
    final (loop s) = Some s'
    /\ painted s' = painted s ++ ps
    /\ Forall paint_ok ps.
Proof.
  intros Hwf. pose proof (loop_cases s Hwf) as H.
  destruct (loop s) as [u s'|o s'| |]; try contradiction.
  - destruct H as (_ & t & b & q & ps & rest & _ & _ & Hp & _ & Hok & _).
    exists s', ps. auto.
  - destruct H as [(_ & -> & _)|(_ & _ & _ & _ & _ & ps & Hp & Hok & _)].
    + exists s, []. rewrite app_nil_r. repeat split. constructor.
    + exists s', ps. auto.
Qed.

Lemma paint_calls_within_bounds_witness :
  well_formed scenario_session
  /\ exists s' ps,
       final (loop scenario_session) = Some s'
       /\ painted s' = painted scenario_session ++ ps
       /\ Forall paint_ok ps.
Proof.
  assert (Hwf : well_formed scenario_session) by reflexivity.
  split; [exact Hwf|].
  exact (paint_calls_within_bounds scenario_session Hwf).
Defined.

(** A header with [x = 65535] and [width = 1] is rejected: the sum is
    65536, not 0. *)
Example near_65535_rejected :
  rejects [255; 255; 0; 0; 0; 1; 0; 1] = true.
Proof. reflexivity. Qed.

(** C2. Whatever the client sends, the buffer is never indexed outside its
    2048 bytes and never changes size: a session ends without a memory
    fault and every byte address it writes is below 2048; and within one
    region every written address is a byte of pixel [row * width + j] with
    [0 <= row < height] and [0 <= j < width], so a pixel index below 1024. *)
Theorem buffer_writes_in_bounds (i : Z) (s : State) :
  well_formed s ->
  (exists s' new,
     final (loop s) = Some s' /\ well_formed s'
     /\ stores s' = new ++ stores s
     /\ Forall (fun a => 0 <= a < BUFFER_BYTES) new)
  /\ (exists s' new,
        final (region_body i s) = Some s' /\ well_formed s'
        /\ stores s' = new ++ stores s
        /\ Forall (in_rows (field (header s) 2) (field (header s) 3)) new
        /\ Forall (fun a => 0 <= a / 2 < MAX_CHUNK_SIZE * MAX_CHUNK_SIZE) new).
Proof.
  intros Hwf. split.
  - pose proof (loop_cases s Hwf) as H. unfold well_formed in *.
    destruct (loop s) as [u s'|o s'| |]; try contradiction.
    + destruct H as (_ & t & b & q & ps & rest & _ & _ & _ & _ & _ & _ & _ & _
                     & HL & new & Hst & Hall).
      exists s', new. rewrite HL. auto.
    + destruct H as [(_ & -> & _)|(_ & _ & _ & HL & (new & Hst & Hall) & _)].
      * exists s, []. repeat split; auto.
      * exists s', new. rewrite HL. auto.
  - pose proof (region_body_spec i s ltac:(unfold well_formed in Hwf; lia)) as H.
    unfold wp in H. unfold well_formed in *.
    assert (Hhalf : forall new, Forall (fun a => 0 <= a < BUFFER_BYTES) new ->
              Forall (fun a => 0 <= a / 2 < MAX_CHUNK_SIZE * MAX_CHUNK_SIZE) new).
    { intros new Hnew. eapply Forall_impl; [exact Hnew|].
      unfold BUFFER_BYTES, MAX_CHUNK_SIZE.
      intros a Ha. split; [apply Z.div_pos; lia|].
      apply Z.div_lt_upper_bound; lia. }
    destruct (region_body i s) as [u s'|o s'| |]; try contradiction.
    + destruct H as (hdr & payload & Hq & Hlen & Hrej & Hpl & HU & _ & _ & _ & _
                     & new & Hst & Hall).
      apply invalid_dimensions_false in Hrej; try apply field_range.
      assert (Hhd : header s = wire hdr).
      { unfold header. now rewrite Hq, take_app_length'. }
      exists s', new. split; [reflexivity|]. split.
      { simpl. rewrite HU, length_blit; [exact Hwf|lia|].
        rewrite length_swap_pairs, length_wire, Hwf.
        pose proof (field_range (wire hdr) 2). pose proof (field_range (wire hdr) 3).
        assert (field (wire hdr) 3 * field (wire hdr) 2 <= 32 * 32)
          by (apply Z.mul_le_mono_nonneg; lia).
        unfold BUFFER_BYTES, MAX_CHUNK_SIZE. lia. }
      split; [exact Hst|]. rewrite Hhd. split; [exact Hall|].
      apply Hhalf. eapply Forall_impl; [exact Hall|]. intros a.
      apply in_rows_bound; unfold MAX_CHUNK_SIZE; lia.
    + destruct H as (_ & _ & _ & HL & (new & Hst & Hall & Hrows) & _).
      exists s', new. simpl. rewrite HL. repeat split; auto.
Qed.

Lemma buffer_writes_in_bounds_witness :
  well_formed scenario_region
  /\ (exists s' new,
        final (loop scenario_region) = Some s' /\ well_formed s'
        /\ stores s' = new ++ stores scenario_region
        /\ Forall (fun a => 0 <= a < BUFFER_BYTES) new)
  /\ (exists s' new,
        final (region_body 0 scenario_region) = Some s'
        /\ well_formed s'
        /\ stores s' = new ++ stores scenario_region
        /\ Forall (in_rows 2 1) new
        /\ Forall (fun a => 0 <= a / 2 < MAX_CHUNK_SIZE * MAX_CHUNK_SIZE) new).
Proof.
  assert (Hwf : well_formed scenario_region) by reflexivity.
  split; [exact Hwf|].
  exact (buffer_writes_in_bounds 0 scenario_region Hwf).
Defined.

Lemma region_body_header i s s1 :
  readExactBytes (MetaPtr 0) 8 (set_metaData (replicate 8 0) s) = Val true s1 ->
  inbox s = take 8 (inbox s) ++ inbox s1 /\ length (take 8 (inbox s)) = 8%nat
  /\ metaData s1 = header s
  /\ link s1 = link s /\ sent s1 = sent s /\ painted s1 = painted s
  /\ updateBuffer s1 = updateBuffer s /\ stores s1 = stores s
  /\ region_body i s = after_header i s s1.
Proof.
  intros Hrun.
  set (sa := set_metaData (replicate 8 0) s) in *.
  destruct (readExactBytes_spec (MetaPtr 0) 8 sa)
    as (ok & s1' & Hrun' & k & Hrd & Hk & Hok & _ & _);
    [simpl; lia | lia | simpl; lia |].
  rewrite Hrun in Hrun'. injection Hrun' as <- <-.
  destruct Hrd as (hdr & Hq & Hk1 & Hn & Hl & Hs & Hp & Ht & HU & Hst).
  simpl in Hq, Hk1, Hn, Hl, Hs, Hp, Ht, HU, Hst.
  assert (Hlen : length hdr = 8%nat).
  { assert (k = 8) by (apply Hok; reflexivity). lia. }
  assert (Hhd : take 8 (inbox s) = hdr).
  { rewrite Hq. now apply take_app_length'. }
  assert (Hm : metaData s1 = header s).
  { unfold header. rewrite Hhd, Ht. apply blit_whole. now rewrite length_wire. }
  rewrite Hhd. repeat split; try assumption.
  unfold region_body, after_header.
  unfold bind at 1. fold sa. unfold bind at 1. rewrite Hrun.
  change (negb true) with false. cbv iota.
  assert (Hml : length (header s) = 8%nat).
  { unfold header. now rewrite Hhd, length_wire. }
  set (m := header s) in *.
  unfold bind at 1.
  rewrite (load_meta m 0%nat s1 Hm ltac:(lia) : load (MetaPtr 0) 0 s1 = _).
  unfold bind at 1.
  rewrite (load_meta m 1%nat s1 Hm ltac:(lia) : load (MetaPtr 0) 1 s1 = _).
  unfold bind at 1.
  rewrite (load_meta m 2%nat s1 Hm ltac:(lia) : load (MetaPtr 0) 2 s1 = _).
  unfold bind at 1.
  rewrite (load_meta m 3%nat s1 Hm ltac:(lia) : load (MetaPtr 0) 3 s1 = _).
  unfold bind at 1.
  rewrite (load_meta m 4%nat s1 Hm ltac:(lia) : load (MetaPtr 0) 4 s1 = _).
  unfold bind at 1.
  rewrite (load_meta m 5%nat s1 Hm ltac:(lia) : load (MetaPtr 0) 5 s1 = _).
  unfold bind at 1.
  rewrite (load_meta m 6%nat s1 Hm ltac:(lia) : load (MetaPtr 0) 6 s1 = _).
  unfold bind at 1.
  rewrite (load_meta m 7%nat s1 Hm ltac:(lia) : load (MetaPtr 0) 7 s1 = _).
  reflexivity.
Qed.

(** C3. Once a region header has been read, the region is rejected exactly
    when [x + width > 240], [y + height > 240], [width > 32] or
    [height > 32]: then the connection is stopped with nothing read past
    the header and nothing painted; otherwise the handler goes on to read
    the rows, and does not leave with "Invalid region dimensions". *)
Theorem header_validation (i : Z) (s s1 : State) :
  well_formed s ->
  readExactBytes (MetaPtr 0) 8 (set_metaData (replicate 8 0) s) = Val true s1 ->
  let x := field (header s) 0 in
  let y := field (header s) 1 in
  let width := field (header s) 2 in
  let height := field (header s) 3 in
  (x + width > 240 \/ y + height > 240 \/ width > 32 \/ height > 32 ->
   exists s',
     region_body i s = Exit (InvalidDimensions i) s'
     /\ link s' = Closed /\ inbox s' = drop 8 (inbox s)
     /\ painted s' = painted s /\ sent s' = sent s
     /\ updateBuffer s' = updateBuffer s)
  /\ (x + width <= 240 /\ y + height <= 240 /\ width <= 32 /\ height <= 32 ->
      region_body i s
      = (for_int (Z.to_nat height) 0 (row_body i width) ;;;
         pushImage x y width height ;;; yield) s1
      /\ inbox s1 = drop 8 (inbox s)
      /\ forall s', region_body i s <> Exit (InvalidDimensions i) s').
Proof.
  intros Hwf Hrun x y width height.
  destruct (region_body_header i s s1 Hrun)
    as (Hq & Hlen & Hm & Hl & Hs & Hp & HU & Hst & Heq).
  assert (Hdrop : inbox s1 = drop 8 (inbox s)).
  { rewrite Hq at 1. rewrite drop_app_length'; [reflexivity|symmetry; exact Hlen]. }
  unfold after_header in Heq.
  split.
  - intros Hbad.
    assert (Hrej : rejects (header s) = true).
    { apply invalid_dimensions_spec; try apply field_range. exact Hbad. }
    rewrite Hrej in Heq.
    exists (set_link Closed s1). split; [exact Heq|]. simpl.
    repeat split; assumption.
  - intros Hgood.
    assert (Hrej : rejects (header s) = false).
    { apply invalid_dimensions_false; try apply field_range. exact Hgood. }
    rewrite Hrej in Heq. split; [exact Heq|]. split; [exact Hdrop|].
    intros s' Hex.
    pose proof (region_body_spec i s ltac:(unfold well_formed in Hwf; lia)) as H.
    unfold wp in H. rewrite Hex in H.
    destruct H as (_ & _ & _ & _ & _ & [[E _]|[(_ & hdr & Hq' & Hlen' & Hrej')
                                             |(r & hdr & bs & E & _)]]);
      try discriminate.
    unfold header in Hrej. rewrite Hq', take_app_length' in Hrej by congruence.
    congruence.
Qed.

Lemma header_validation_witness :
  well_formed out_of_bounds_region
  /\ readExactBytes (MetaPtr 0) 8
       (set_metaData (replicate 8 0) out_of_bounds_region)
     = Val true out_of_bounds_header_read
  /\ exists s',
       region_body 0 out_of_bounds_region = Exit (InvalidDimensions 0) s'
       /\ link s' = Closed /\ inbox s' = drop 8 (inbox out_of_bounds_region)
       /\ painted s' = painted out_of_bounds_region
       /\ sent s' = sent out_of_bounds_region
       /\ updateBuffer s' = updateBuffer out_of_bounds_region.
Proof.
  assert (Hwf : well_formed out_of_bounds_region) by reflexivity.
  assert (Hrun : readExactBytes (MetaPtr 0) 8
                   (set_metaData (replicate 8 0) out_of_bounds_region)
                 = Val true out_of_bounds_header_read)
    by (vm_compute; reflexivity).
  split; [exact Hwf|]. split; [exact Hrun|].
  apply (header_validation 0 _ _ Hwf Hrun).
  left. vm_compute. reflexivity.
Defined.

Lemma abort_not_all_painted s o s' ps :
  painted s' = painted s ++ ps -> abort_cause s o s' ps ->
  failure o /\ ~ all_regions_painted s s'.
Proof.
  intros Hp Hc. split.
  - destruct Hc as [(-> & _)|[(-> & _)|(t & b & q & i & _ & _ & _ & _ & Ho)]].
    + left. reflexivity.
    + right. left. reflexivity.
    + right. right. exists i. exact Ho.
  - intros (t' & b' & q' & ps' & Hq' & Hn' & Hp' & Hlen').
    rewrite Hp in Hp'. apply app_inv_head in Hp'. subst ps'.
    destruct Hc as [(_ & -> & _)|[(_ & -> & _)|(t & b & q & i & Hq & Hn & Hi & Hlen & _)]].
    + simpl in Hlen'. lia.
    + simpl in Hlen'. lia.
    + rewrite Hq in Hq'. injection Hq' as <- <- <-. lia.
Qed.

(** C4. In a session with a client, ["OK"] is written exactly when the
    client declared a valid count [N] and [N] regions were painted; at
    every failure (no byte in time, bad count, short header, bad
    dimensions, short row) the connection is stopped and nothing at all
    has been written to the client. *)
Theorem ack_iff_all_regions (s : State) :
  well_formed s -> link s = Open ->
  exists s',
    final (loop s) = Some s' /\ link s' = Closed
    /\ ((exists u, loop s = Val u s' /\ sent s' = sent s ++ OK_bytes
                   /\ all_regions_painted s s')
        \/ (exists o, loop s = Exit o s' /\ failure o /\ sent s' = sent s
                      /\ ~ all_regions_painted s s'))
    /\ (sent s' = sent s ++ OK_bytes <-> all_regions_painted s s').
Proof.
  intros Hwf Hopen. pose proof (loop_cases s Hwf) as H.
  destruct (loop s) as [u s'|o s'| |]; try contradiction.
  - destruct H as (_ & t & b & q & ps & rest & Hq & Hn & Hp & Hlen & _ & _
                   & Hs & Hl & _).
    assert (Hall : all_regions_painted s s') by (exists t, b, q, ps; auto).
    exists s'. split; [reflexivity|]. split; [exact Hl|]. split.
    + left. exists u. auto.
    + tauto.
  - destruct H as [(_ & _ & Hno)|(_ & Hs & Hl & _ & _ & ps & Hp & _ & Hc)];
      [congruence|].
    destruct (abort_not_all_painted s o s' ps Hp Hc) as [Hf Hnot].
    exists s'. split; [reflexivity|]. split; [exact Hl|]. split.
    + right. exists o. auto.
    + split; [|tauto]. rewrite Hs. intros E.
      rewrite <- (app_nil_r (sent s)) in E at 1.
      apply app_inv_head in E. discriminate.
Qed.

Lemma ack_iff_all_regions_witness :
  well_formed scenario_session /\ link scenario_session = Open
  /\ exists s',
       final (loop scenario_session) = Some s' /\ link s' = Closed
       /\ ((exists u, loop scenario_session = Val u s'
                      /\ sent s' = sent scenario_session ++ OK_bytes
                      /\ all_regions_painted scenario_session s')
           \/ (exists o, loop scenario_session = Exit o s'
                         /\ failure o
                         /\ sent s' = sent scenario_session
                         /\ ~ all_regions_painted scenario_session s'))
       /\ (sent s' = sent scenario_session ++ OK_bytes
           <-> all_regions_painted scenario_session s').
Proof.
  assert (Hwf : well_formed scenario_session) by reflexivity.
  assert (Hopen : link scenario_session = Open) by reflexivity.
  split; [exact Hwf|]. split; [exact Hopen|].
  exact (ack_iff_all_regions scenario_session Hwf Hopen).
Defined.



(** ** Contents of the buffer after a fill *)

Lemma lookup_swap_pairs bs :
  forall k, (2 * k + 1 < length bs)%nat ->
    swap_pairs bs !! (2 * k)%nat = bs !! (2 * k + 1)%nat
    /\ swap_pairs bs !! (2 * k + 1)%nat = bs !! (2 * k)%nat.
Proof.
  induction bs as [bs IH] using (induction_ltof1 _ (@length Z)).
  intros k Hk. destruct bs as [|a [|b rest]]; simpl in Hk; try lia.
  destruct k as [|k].
  - split; reflexivity.
  - replace (2 * S k)%nat with (S (S (2 * k))) by lia.
    replace (S (S (2 * k)) + 1)%nat with (S (S (2 * k + 1))) by lia.
    simpl swap_pairs. cbn [lookup list_lookup].
    apply (IH rest); [unfold ltof; simpl; lia|lia].
Qed.

Lemma row_body_fill i w row s :
  0 <= w <= MAX_CHUNK_SIZE -> 0 <= row < MAX_CHUNK_SIZE ->
  2 * (row * w) + w * 2 <= Z.of_nat (length (updateBuffer s)) ->
  wp (row_body i w row) (fun _ s' => row_filled w row s s')
     (fun o _ => o = RowFailed row i) s.
Proof.
  unfold MAX_CHUNK_SIZE. intros Hw Hrow Hcap.
  assert (Hrw : 0 <= row * w <= 31 * 32) by nia.
  unfold row_body.
  rewrite (int32_small (row * w)) by lia.
  rewrite (int32_small (w * 2)) by lia.
  rewrite (uint32_small (w * 2)) by lia.
  set (base := 2 * (row * w)) in *.
  destruct (readExactBytes_spec (BufPtr base) (w * 2) s)
    as (ok & s1 & Hrun & k & Hrd & Hk & Hok & _ & _);
    [simpl; lia | lia | simpl; lia |].
  destruct Hrd as (bs & Hq & Hk1 & _ & _ & _ & _ & Ht & _).
  simpl in Ht, Hk1. rewrite Z.add_0_r in Ht.
  apply wp_bind. eapply wp_val; [exact Hrun|].
  destruct ok; simpl negb; cbv iota.
  - assert (Hk2 : k = w * 2) by (apply Hok; reflexivity).
    assert (Hlen : Z.of_nat (length (wire bs)) = w * 2)
      by (rewrite length_wire; lia).
    replace (Z.to_nat w) with (length (wire bs) / 2)%nat.
    2:{ replace (length (wire bs)) with (Z.to_nat w * 2)%nat by lia.
        apply Nat.div_mul. lia. }
    eapply wp_mono.
    + apply (swap_loop_spec (updateBuffer s) base (wire bs) s1);
        try lia; [exists (Z.to_nat w); lia | exact Ht].
    + intros u s2 (HU & (_ & _ & Hq2 & _) & _).
      exists bs. rewrite Hq2. split; [exact Hq|].
      split; [rewrite <- Hlen, length_wire; reflexivity | exact HU].
    + intros o s2 [].
  - apply wp_bind. eapply wp_val; [reflexivity|]. apply wp_exit. reflexivity.
Qed.

Lemma row_body_cases i w row s :
  0 <= w <= MAX_CHUNK_SIZE -> 0 <= row < MAX_CHUNK_SIZE ->
  2 * (row * w) + w * 2 <= Z.of_nat (length (updateBuffer s)) ->
  match row_body i w row s with
  | Val _ s' => row_filled w row s s'
  | Exit o _ => o = RowFailed row i
  | Fault => False
  | Fuel => False
  end.
Proof.
  intros Hw Hrow Hcap. exact (row_body_fill i w row s Hw Hrow Hcap).
Qed.

Lemma region_body_done i s u s' :
  well_formed s -> region_body i s = Val u s' ->
  exists payload, region_done s s' (take 8 (inbox s)) payload.
Proof.
  intros Hwf Hrun.
  pose proof (region_body_spec i s ltac:(unfold well_formed in Hwf; lia)) as H.
  unfold wp in H. rewrite Hrun in H.
  destruct H as (hdr & payload & Hdone). exists payload.
  destruct Hdone as (Hq & Hlen & Hrest).
  replace (take 8 (inbox s)) with hdr; [split; [exact Hq|split; assumption]|].
  rewrite Hq. symmetry. now apply take_app_length'.
Qed.

(** C6. A region that is read whole takes [height] rows of [width * 2]
    bytes from the stream; row [r] goes to pixel offset [r * width], with
    the two bytes of each pixel exchanged; so that pixel [row * width + j]
    of the buffer given to [tft.pushImage] holds bytes [2k+1] and [2k] of
    the payload, in that order ([k = row * width + j]). *)
Theorem region_fill_row_major (i : Z) (s : State) (u : unit) (s' : State) :
  well_formed s -> region_body i s = Val u s' ->
  let width := field (header s) 2 in
  let height := field (header s) 3 in
  (exists payload : list (Z * Z),
     inbox s = take 8 (inbox s) ++ payload ++ inbox s'
     /\ Z.of_nat (length payload) = height * (width * 2)
     /\ updateBuffer s' = blit (updateBuffer s) 0 (swap_pairs (wire payload))
     /\ (exists p, painted s' = painted s ++ [p] /\ pdata p = updateBuffer s')
     /\ forall row j,
          0 <= row < height -> 0 <= j < width ->
          let k := Z.to_nat (row * width + j) in
          updateBuffer s' !! (2 * k)%nat = wire payload !! (2 * k + 1)%nat
          /\ updateBuffer s' !! (2 * k + 1)%nat = wire payload !! (2 * k)%nat
          /\ pixel (updateBuffer s') k
             = 2 ^ 8 * (wire payload !!! (2 * k)%nat)
               + wire payload !!! (2 * k + 1)%nat)
  /\ (forall row sr, 0 <= row < height -> well_formed sr ->
        match row_body i width row sr with
        | Val _ sr' => row_filled width row sr sr'
        | Exit o _ => o = RowFailed row i
        | Fault => False
        | Fuel => False
        end).
Proof.
  intros Hwf Hrun width height.
  destruct (region_body_done i s u s' Hwf Hrun) as (payload & Hdone).
  destruct Hdone as (Hq & Hlen & Hrej & Hpl & HU & Hp & _).
  fold (header s) in Hrej, Hpl, Hp. fold width height in Hpl.
  apply invalid_dimensions_false in Hrej; try apply field_range.
  fold width height in Hrej.
  pose proof (field_range (header s) 2) as Hw. fold width in Hw.
  pose proof (field_range (header s) 3) as Hh. fold height in Hh.
  assert (Hprod : height * width <= 32 * 32)
    by (apply Z.mul_le_mono_nonneg; lia).
  unfold well_formed, BUFFER_BYTES, MAX_CHUNK_SIZE in Hwf.
  split.
  - exists payload. split; [exact Hq|]. split; [lia|]. split; [exact HU|].
    split; [eexists; split; [exact Hp|reflexivity]|].
    intros row j Hrow Hj k.
    assert (Hk : (2 * k + 1 < length (wire payload))%nat).
    { rewrite length_wire. subst k.
      assert (row * width + j < height * width) by nia. lia. }
    destruct (lookup_swap_pairs (wire payload) k Hk) as [E0 E1].
    assert (L0 : updateBuffer s' !! (2 * k)%nat = wire payload !! (2 * k + 1)%nat).
    { rewrite HU, <- E0.
      apply (lookup_blit (updateBuffer s) 0 (swap_pairs (wire payload)) (2 * k));
        rewrite ?length_swap_pairs; try lia.
      rewrite length_wire. lia. }
    assert (L1 : updateBuffer s' !! (2 * k + 1)%nat = wire payload !! (2 * k)%nat).
    { rewrite HU, <- E1.
      apply (lookup_blit (updateBuffer s) 0 (swap_pairs (wire payload)) (2 * k + 1));
        rewrite ?length_swap_pairs; try lia.
      rewrite length_wire. lia. }
    split; [exact L0|]. split; [exact L1|].
    unfold pixel. rewrite !list_lookup_total_alt, L0, L1. lia.
  - intros row sr Hrow Hsr.
    unfold well_formed, BUFFER_BYTES, MAX_CHUNK_SIZE in Hsr.
    assert (row * width <= 31 * 32)
      by (apply Z.mul_le_mono_nonneg; lia).
    apply row_body_cases; unfold MAX_CHUNK_SIZE; lia.
Qed.

Lemma region_fill_row_major_witness :
  well_formed scenario_region
  /\ region_body 0 scenario_region = Val tt scenario_region_done
  /\ exists payload : list (Z * Z),
       inbox scenario_region
       = take 8 (inbox scenario_region) ++ payload
         ++ inbox scenario_region_done
       /\ Z.of_nat (length payload) = 1 * (2 * 2).
Proof.
  assert (Hwf : well_formed scenario_region) by reflexivity.
  assert (Hrun : region_body 0 scenario_region = Val tt scenario_region_done)
    by (vm_compute; reflexivity).
  split; [exact Hwf|]. split; [exact Hrun|].
  destruct (region_fill_row_major 0 _ tt _ Hwf Hrun)
    as [(payload & Hq & Hlen & _) _].
  exists payload. split; [exact Hq | exact Hlen].
Defined.

(** C9. A region read whole ends in exactly one [tft.pushImage] call, with
    the rectangle of its header and the buffer as just filled; and a
    session that ends with the acknowledgment has added one call per
    declared region, in stream order: the calls show exactly the regions
    that [decode_regions] reads off the bytes after the count. *)
Theorem one_paint_per_region (s : State) (u : unit) (s' : State) :
  well_formed s -> loop s = Val u s' ->
  (exists t b q ps rest,
     inbox s = (t, b) :: q
     /\ painted s' = painted s ++ ps
     /\ Z.of_nat (length ps) = uint8 b
     /\ decode_regions (Z.to_nat (uint8 b)) (wire q) = Some (map shown ps, rest))
  /\ (forall i sr ur sr',
        well_formed sr -> region_body i sr = Val ur sr' ->
        painted sr'
        = painted sr ++ [mkPaint (field (header sr) 0) (field (header sr) 1)
                                 (field (header sr) 2) (field (header sr) 3)
                                 (updateBuffer sr')]
        /\ exists payload : list (Z * Z),
             inbox sr = take 8 (inbox sr) ++ payload ++ inbox sr'
             /\ updateBuffer sr'
                = blit (updateBuffer sr) 0 (swap_pairs (wire payload))).
Proof.
  intros Hwf Hrun. split.
  - pose proof (loop_cases s Hwf) as H. rewrite Hrun in H.
    destruct H as (_ & t & b & q & ps & rest & Hq & _ & Hp & Hlen & _ & Hdec & _).
    exists t, b, q, ps, rest. auto.
  - intros i sr ur sr' Hsr Hreg.
    destruct (region_body_done i sr ur sr' Hsr Hreg)
      as (payload & Hq & _ & _ & _ & HU & Hp & _).
    split; [exact Hp|]. exists payload. auto.
Qed.

Lemma one_paint_per_region_witness :
  well_formed scenario_session
  /\ loop scenario_session = Val tt scenario_session_done
  /\ exists t b q ps rest,
       inbox scenario_session = (t, b) :: q
       /\ painted scenario_session_done = painted scenario_session ++ ps
       /\ Z.of_nat (length ps) = uint8 b
       /\ decode_regions (Z.to_nat (uint8 b)) (wire q)
          = Some (map shown ps, rest).
Proof.
  assert (Hwf : well_formed scenario_session) by reflexivity.
  assert (Hrun : loop scenario_session = Val tt scenario_session_done)
    by (vm_compute; reflexivity).
  split; [exact Hwf|]. split; [exact Hrun|].
  exact (proj1 (one_paint_per_region _ tt _ Hwf Hrun)).
Defined.

(** ** Regions of no pixels *)

Lemma readExactBytes_loop_zero fuel p timeout s :
  readExactBytes_loop fuel p 0 timeout 0 s = Val 0 s.
Proof. destruct fuel; reflexivity. Qed.

(** A read of no bytes succeeds at once and touches nothing. *)
Lemma readExactBytes_zero p s : readExactBytes p 0 s = Val true s.
Proof.
  unfold readExactBytes, bind, millis.
  rewrite readExactBytes_loop_zero. reflexivity.
Qed.

Lemma row_body_zero_width i row s : row_body i 0 row s = Val tt s.
Proof.
  unfold row_body, bind.
  change (uint32 (int32 (0 * 2))) with 0.
  rewrite readExactBytes_zero. reflexivity.
Qed.

Lemma rows_zero_width i n : forall j s, for_int n j (row_body i 0) s = Val tt s.
Proof.
  induction n as [|n IH]; intros j s; [reflexivity|].
  simpl. unfold bind. rewrite row_body_zero_width. apply IH.
Qed.

(** C10. A header with [width = 0] or [height = 0] that fits the display
    is accepted: the region takes no byte after its header from the
    stream, [tft.pushImage] is still called once, with that empty
    rectangle, and the region loop goes on (no [return], the connection
    stays as it was).  A read of zero bytes is an immediate success. *)
Theorem zero_dimension_region (i : Z) (s s1 : State) :
  readExactBytes (MetaPtr 0) 8 (set_metaData (replicate 8 0) s) = Val true s1 ->
  let x := field (header s) 0 in
  let y := field (header s) 1 in
  let width := field (header s) 2 in
  let height := field (header s) 3 in
  width = 0 \/ height = 0 ->
  x + width <= 240 -> y + height <= 240 -> width <= 32 -> height <= 32 ->
  (exists s',
     region_body i s = Val tt s'
     /\ inbox s' = drop 8 (inbox s)
     /\ painted s' = painted s ++ [mkPaint x y width height (updateBuffer s)]
     /\ updateBuffer s' = updateBuffer s /\ stores s' = stores s
     /\ link s' = link s /\ sent s' = sent s
     /\ now s' = now s1 + 1)
  /\ (forall p s0, readExactBytes p 0 s0 = Val true s0).
Proof.
  intros Hrun x y width height Hzero Hx Hy Hw Hh.
  split; [|exact readExactBytes_zero].
  destruct (region_body_header i s s1 Hrun)
    as (Hq & Hlen & Hm & Hl & Hs & Hp & HU & Hst & Heq).
  assert (Hdrop : inbox s1 = drop 8 (inbox s)).
  { rewrite Hq at 1. rewrite drop_app_length'; [reflexivity|symmetry; exact Hlen]. }
  assert (Hrej : rejects (header s) = false).
  { apply invalid_dimensions_false; try apply field_range. auto. }
  unfold after_header in Heq. rewrite Hrej in Heq.
  fold x y width height in Heq.
  assert (Hrows : for_int (Z.to_nat height) 0 (row_body i width) s1 = Val tt s1).
  { destruct Hzero as [E|E]; rewrite E; [apply rows_zero_width|reflexivity]. }
  unfold bind at 1 in Heq. rewrite Hrows in Heq.
  eexists. split; [exact Heq|]. simpl.
  rewrite HU, Hp. repeat split; assumption.
Qed.

Lemma zero_dimension_region_witness :
  readExactBytes (MetaPtr 0) 8 (set_metaData (replicate 8 0) empty_region)
  = Val true empty_region_header_read
  /\ (field (header empty_region) 2 = 0 \/ field (header empty_region) 3 = 0)
  /\ field (header empty_region) 0 + field (header empty_region) 2 <= 240
  /\ field (header empty_region) 1 + field (header empty_region) 3 <= 240
  /\ field (header empty_region) 2 <= 32
  /\ field (header empty_region) 3 <= 32
  /\ exists s',
       region_body 0 empty_region = Val tt s'
       /\ inbox s' = drop 8 (inbox empty_region)
       /\ painted s'
          = painted empty_region
            ++ [mkPaint 0 0 0 3 (updateBuffer empty_region)]
       /\ updateBuffer s' = updateBuffer empty_region
       /\ stores s' = stores empty_region
       /\ link s' = link empty_region /\ sent s' = sent empty_region
       /\ now s' = now empty_region_header_read + 1.
Proof.
  assert (Hrun : readExactBytes (MetaPtr 0) 8
                   (set_metaData (replicate 8 0) empty_region)
                 = Val true empty_region_header_read)
    by (vm_compute; reflexivity).
  assert (Hzero : field (header empty_region) 2 = 0
                  \/ field (header empty_region) 3 = 0)
    by (left; reflexivity).
  assert (Hx : field (header empty_region) 0 + field (header empty_region) 2
               <= 240) by (vm_compute; discriminate).
  assert (Hy : field (header empty_region) 1 + field (header empty_region) 3
               <= 240) by (vm_compute; discriminate).
  assert (Hw : field (header empty_region) 2 <= 32)
    by (vm_compute; discriminate).
  assert (Hh : field (header empty_region) 3 <= 32)
    by (vm_compute; discriminate).
  split; [exact Hrun|]. split; [exact Hzero|].
  split; [exact Hx|]. split; [exact Hy|]. split; [exact Hw|]. split; [exact Hh|].
  exact (proj1 (zero_dimension_region 0 _ _ Hrun Hzero Hx Hy Hw Hh)).
Defined.

(** ** [readExactBytes] against the arrival times *)

Lemma store_frame p i v s u s' :
  store p i v s = Val u s' -> now s' = now s /\ inbox s' = inbox s.
Proof.
  unfold store. destruct p;
    match goal with
    | |- (if ?c then _ else _) = _ -> _ => destruct c; [|discriminate]
    end; intros E; inversion E; subst; split; reflexivity.
Qed.

Lemma in_time_late n t d q : d <= t -> in_time (S n) t d q = false.
Proof.
  intros Hd. simpl. destruct q as [|[ta b] q]; [reflexivity|].
  assert (E : (Z.max t ta <? d) = false) by (apply Z.ltb_ge; lia).
  now rewrite E.
Qed.

Lemma in_time_idle n t d q :
  match q with [] => True | (ta, _) :: _ => t < ta end ->
  in_time n (t + 1) d q = in_time n t d q.
Proof.
  destruct n as [|n]; [reflexivity|]. simpl.
  destruct q as [|[ta b] q]; [reflexivity|]. intros Hta.
  replace (Z.max (t + 1) ta) with ta by lia.
  replace (Z.max t ta) with ta by lia. reflexivity.
Qed.

Lemma readExactBytes_loop_in_time fuel p len timeout :
  forall r s r' s',
    readExactBytes_loop fuel p len timeout r s = Val r' s' ->
    0 <= r <= len -> len < 2 ^ 32 -> timeout < 2 ^ 32 ->
    (r' =? len)
    = in_time (Z.to_nat (len - r)) (now s)
              (now s + (timeout - uint32 (now s))) (inbox s).
Proof.
  induction fuel as [|fuel IH]; intros r s r' s' Hrun Hr Hlen Hto;
    simpl in Hrun; unfold bind at 1, millis in Hrun;
    destruct ((r <? len) && (uint32 (now s) <? timeout)) eqn:E.
  - discriminate.
  - injection Hrun as <- <-.
    destruct (Z.eq_dec r len) as [->|Hne].
    + rewrite Z.sub_diag, Z.eqb_refl. reflexivity.
    + replace (Z.to_nat (len - r)) with (S (Z.to_nat (len - r - 1))) by lia.
      rewrite in_time_late by lia. apply Z.eqb_neq. exact Hne.
  - apply andb_true_iff in E. destruct E as [E1 E2].
    apply Z.ltb_lt in E1. apply Z.ltb_lt in E2.
    pose proof (uint32_range (now s)) as Hm.
    assert (Hnext : uint32 (now s + 1) = uint32 (now s) + 1)
      by (apply uint32_add_small; lia).
    replace (Z.to_nat (len - r)) with (S (Z.to_nat (len - (r + 1)))) by lia.
    unfold bind at 1, client_available, arrived in Hrun.
    destruct (inbox s) as [|[ta b] q] eqn:Hq.
    + unfold bind at 1 2, ret, yield in Hrun.
      apply IH in Hrun; try lia.
      simpl in Hrun. rewrite Hnext, Hq in Hrun. rewrite Hrun.
      replace (Z.to_nat (len - r)) with (S (Z.to_nat (len - (r + 1)))) by lia.
      reflexivity.
    + destruct (ta <=? now s) eqn:Hta.
      * unfold bind at 1 2 3, client_read in Hrun. rewrite Hq, Hta in Hrun.
        unfold bind at 1 in Hrun.
        destruct (store p r (uint8 (uint8 b)) (set_inbox q s))
          as [u1 s1| | |] eqn:Hst; try discriminate.
        destruct (store_frame _ _ _ _ _ _ Hst) as [Hn1 Hq1]. simpl in Hn1, Hq1.
        unfold ret, yield in Hrun.
        rewrite (uint32_small (r + 1)) in Hrun by lia.
        apply IH in Hrun; try lia.
        simpl in Hrun. rewrite Hn1, Hq1, Hnext in Hrun. rewrite Hrun.
        apply Z.leb_le in Hta.
        cbn [in_time]. replace (Z.max (now s) ta) with (now s) by lia.
        assert (Ein : (now s <? now s + (timeout - uint32 (now s))) = true)
          by (apply Z.ltb_lt; lia).
        rewrite Ein. simpl andb. f_equal. lia.
      * unfold bind at 1 2, ret, yield in Hrun.
        apply IH in Hrun; try lia.
        simpl in Hrun. rewrite Hnext, Hq in Hrun. rewrite Hrun.
        apply Z.leb_gt in Hta.
        replace (Z.to_nat (len - r)) with (S (Z.to_nat (len - (r + 1)))) by lia.
        replace (now s + 1 + (timeout - (uint32 (now s) + 1)))
          with (now s + (timeout - uint32 (now s))) by lia.
        apply in_time_idle. exact Hta.
  - injection Hrun as <- <-.
    destruct (Z.eq_dec r len) as [->|Hne].
    + rewrite Z.sub_diag, Z.eqb_refl. reflexivity.
    + replace (Z.to_nat (len - r)) with (S (Z.to_nat (len - r - 1))) by lia.
      apply andb_false_iff in E.
      rewrite in_time_late by lia. apply Z.eqb_neq. exact Hne.
Qed.

Lemma readExactBytes_in_time p len s ok s' :
  0 <= len < 2 ^ 32 ->
  readExactBytes p len s = Val ok s' ->
  ok = in_time (Z.to_nat len) (now s) (deadline s) (inbox s).
Proof.
  intros Hlen Hrun. unfold readExactBytes, bind at 1, millis in Hrun.
  unfold bind in Hrun.
  destruct (readExactBytes_loop _ _ _ _ _ s) as [r s1| | |] eqn:E;
    try discriminate.
  unfold ret in Hrun. injection Hrun as <- <-.
  pose proof (uint32_range (uint32 (now s) + 1000)).
  apply readExactBytes_loop_in_time in E; try lia.
  rewrite Z.sub_0_r in E. exact E.
Qed.



(** With that client the call fails after three bytes and a full second. *)
Example slow_client_times_out :
  exists s',
    readExactBytes (MetaPtr 0) 4 slow_client = Val false s'
    /\ now s' = 1000 /\ inbox s' = [(2000, 4)]
    /\ take 3 (metaData s') = [1; 2; 3].
Proof. eexists. vm_compute. repeat split. Qed.

(** Close to the wrap of [millis()] the deadline lies behind the clock and
    the call fails at once, though its bytes are all there. *)
Example deadline_wraps :
  readExactBytes (MetaPtr 0) 2 (boot (2 ^ 32 - 500) (at_time 0 [1; 2]))
  = Val false (boot (2 ^ 32 - 500) (at_time 0 [1; 2])).
Proof. vm_compute. reflexivity. Qed.

(** ** The scenario of the specification *)




(** The same holds at any arrival times and on any buffer contents: when a
    session fed these thirteen bytes runs to its end, it has made that one
    paint call and written ["OK"]. *)
Lemma scenario_any_timing (s : State) (u : unit) (s' : State) :
  well_formed s -> wire (inbox s) = scenario -> loop s = Val u s' ->
  exists p,
    painted s' = painted s ++ [p]
    /\ shown p = mkRegion 0 0 2 1 [0xFF; 0x00; 0x34; 0x12]
    /\ pixels p = [0x00FF; 0x1234]
    /\ sent s' = sent s ++ OK_bytes.
Proof.
  intros Hwf Hin Hrun.
  pose proof (loop_cases s Hwf) as H. rewrite Hrun in H.
  destruct H as (_ & t & b & q & ps & rest & Hq & _ & Hp & _ & _ & Hdec & Hs & _).
  rewrite Hq in Hin. unfold scenario in Hin. cbn [wire map snd] in Hin.
  injection Hin as Hb Hw. fold (wire q) in Hw.
  rewrite Hb, Hw in Hdec.
  assert (E : decode_regions (Z.to_nat 1)
                [0; 0; 0; 0; 0; 2; 0; 1; 0x00; 0xFF; 0x12; 0x34]
              = Some ([mkRegion 0 0 2 1 [0xFF; 0x00; 0x34; 0x12]], []))
    by (vm_compute; reflexivity).
  rewrite E in Hdec. injection Hdec as Hps _.
  destruct ps as [|p [|p' ps]]; try discriminate.
  assert (Hshown : shown p = mkRegion 0 0 2 1 [0xFF; 0x00; 0x34; 0x12])
    by (simpl in Hps; congruence).
  exists p. split; [exact Hp|]. split; [exact Hshown|].
  split; [|exact Hs].
  destruct p as [x y w h data]. unfold shown in Hshown.
  cbn [px py pw ph pdata] in Hshown.
  injection Hshown as -> -> -> -> Hdata.
  change (Z.to_nat (2 * (1 * 2))) with 4%nat in Hdata.
  destruct data as [|d0 [|d1 [|d2 [|d3 data]]]]; try discriminate.
  injection Hdata as -> -> -> ->. reflexivity.
Qed.

(** ** Durations *)

Lemma lasts_mono {A} (m : M A) b b' s : b <= b' -> lasts m b s -> lasts m b' s.
Proof. unfold lasts. intros Hb. destruct (m s); intros; lia. Qed.

Lemma lasts_bind {A B} (m : M A) (k : A -> M B) b1 b2 s :
  0 <= b2 ->
  lasts m b1 s -> (forall a s1, m s = Val a s1 -> lasts (k a) b2 s1) ->
  lasts (bind m k) (b1 + b2) s.
Proof.
  unfold lasts, bind. intros Hb Hm Hk.
  destruct (m s) as [a s1|o s1| |] eqn:E; try exact I.
  - specialize (Hk a s1 eq_refl). unfold lasts in Hk.
    destruct (k a s1); try exact I; lia.
  - lia.
Qed.

Lemma lasts_for_int body b :
  0 <= b -> (forall j s, lasts (body j) b s) ->
  forall n i s, lasts (for_int n i body) (Z.of_nat n * b) s.
Proof.
  intros Hb Hbody. induction n as [|n IH]; intros i s.
  - unfold lasts. simpl. lia.
  - simpl for_int.
    replace (Z.of_nat (S n) * b) with (b + Z.of_nat n * b) by lia.
    apply lasts_bind; [nia|apply Hbody|]. intros _ s1 _. apply IH.
Qed.

Lemma store_now p i v s u s' : store p i v s = Val u s' -> now s' = now s.
Proof. intros H. apply (store_frame _ _ _ _ _ _ H). Qed.

Lemma load_same p i s v s' : load p i s = Val v s' -> s' = s.
Proof.
  unfold load. destruct p; simpl;
    match goal with
    | |- (if ?c then _ else _) = _ -> _ => destruct c; [discriminate|]
    end;
    match goal with
    | |- match ?c with _ => _ end = _ -> _ => destruct c; [|discriminate]
    end; intros E; inversion E; reflexivity.
Qed.

Lemma lasts_load p i s : lasts (load p i) 0 s.
Proof.
  unfold lasts. destruct (load p i s) as [v s'|o s'| |] eqn:E; try exact I.
  - apply load_same in E. subst. lia.
  - unfold load in E. destruct p; simpl in E;
      repeat match type of E with
             | (if ?c then _ else _) = _ => destruct c; try discriminate
             | match ?c with _ => _ end = _ => destruct c; try discriminate
             end.
Qed.

Lemma lasts_store p i v s : lasts (store p i v) 0 s.
Proof.
  unfold lasts. destruct (store p i v s) as [u s'|o s'| |] eqn:E; try exact I.
  - apply store_now in E. lia.
  - unfold store in E. destruct p;
      match type of E with
      | (if ?c then _ else _) = _ => destruct c; discriminate
      end.
Qed.

(** A pass of the polling loop takes a millisecond, and the loop stops at
    the deadline. *)
Lemma lasts_readExactBytes_loop fuel p len timeout :
  forall r s,
    timeout < 2 ^ 32 ->
    lasts (readExactBytes_loop fuel p len timeout r)
          (Z.max 0 (timeout - uint32 (now s))) s.
Proof.
  induction fuel as [|fuel IH]; intros r s Hto; unfold lasts;
    simpl readExactBytes_loop; unfold bind at 1, millis;
    destruct ((r <? len) && (uint32 (now s) <? timeout)) eqn:E;
    try exact I; try (unfold ret; lia).
  apply andb_true_iff in E. destruct E as [_ E]. apply Z.ltb_lt in E.
  pose proof (uint32_range (now s)) as Hm.
  assert (Hnext : uint32 (now s + 1) = uint32 (now s) + 1)
    by (apply uint32_add_small; lia).
  unfold bind at 1, client_available.
  destruct (arrived s) eqn:Ha.
  - unfold bind at 1 2, client_read. unfold arrived in Ha.
    destruct (inbox s) as [|[t b] q]; [discriminate|]. rewrite Ha.
    unfold bind at 1.
    pose proof (lasts_store p r (uint8 (uint8 b)) (set_inbox q s)) as Hst.
    unfold lasts in Hst. simpl in Hst.
    destruct (store p r (uint8 (uint8 b)) (set_inbox q s)) as [u s1|o s1| |];
      try exact I; [|lia].
    unfold ret, bind, yield.
    remember (set_now (now s1 + 1) s1) as s2 eqn:Hs2.
    assert (Hn2 : now s2 = now s + 1) by (subst s2; simpl; lia).
    specialize (IH (uint32 (r + 1)) s2 Hto).
    unfold lasts in IH. rewrite Hn2, Hnext in IH.
    destruct (readExactBytes_loop fuel p len timeout (uint32 (r + 1)) s2);
      try exact I; lia.
  - unfold bind, ret, yield.
    remember (set_now (now s + 1) s) as s2 eqn:Hs2.
    assert (Hn2 : now s2 = now s + 1) by (subst s2; simpl; lia).
    specialize (IH r s2 Hto).
    unfold lasts in IH. rewrite Hn2, Hnext in IH.
    destruct (readExactBytes_loop fuel p len timeout r s2);
      try exact I; lia.
Qed.

Lemma lasts_readExactBytes p len s : lasts (readExactBytes p len) 1000 s.
Proof.
  unfold readExactBytes.
  apply (lasts_mono _ (0 + (1000 + 0))); [lia|].
  apply lasts_bind; [lia|unfold lasts, millis; simpl; lia|].
  intros m s1 E.
  replace s1 with s in * by (unfold millis in E; congruence).
  replace m with (uint32 (now s)) by (unfold millis in E; congruence). clear E.
  apply lasts_bind; [lia| |intros; unfold lasts, ret; simpl; lia].
  pose proof (uint32_range (uint32 (now s) + 1000)) as Hto.
  eapply lasts_mono; [|apply lasts_readExactBytes_loop; lia].
  destruct (deadline_cases (now s) 1000 ltac:(lia)); lia.
Qed.

Lemma lasts_swap_body p j s : lasts (swap_body p j) 0 s.
Proof.
  unfold swap_body.
  replace 0 with (0 + (0 + (0 + 0))) by lia.
  apply lasts_bind; [lia|apply lasts_load|]. intros.
  apply lasts_bind; [lia|apply lasts_load|]. intros.
  apply lasts_bind; [lia|apply lasts_store|]. intros.
  apply lasts_store.
Qed.

Lemma lasts_row_body i w row s : lasts (row_body i w row) 1000 s.
Proof.
  unfold row_body.
  replace 1000 with (1000 + 0) by lia.
  apply lasts_bind; [lia|apply lasts_readExactBytes|].
  intros ok s1 _. destruct ok; simpl negb; cbv iota.
  - replace 0 with (Z.of_nat (Z.to_nat w) * 0) by lia.
    apply lasts_for_int; [lia|]. intros. apply lasts_swap_body.
  - unfold lasts, bind, client_stop, exit. simpl. lia.
Qed.








(** ** The wait for the first byte, to the millisecond *)

Lemma loop_after_wait s s1 :
  link s = Open ->
  wait_loop 500 (uint32 (uint32 (now s) + 5000)) s = Val tt s1 ->
  loop s = after_wait s1.
Proof.
  intros Hopen Hwait. unfold loop, after_wait.
  unfold bind at 1, server_accept. rewrite Hopen.
  change (negb true) with false. cbv iota.
  unfold bind at 1, millis. unfold bind at 1. rewrite Hwait. reflexivity.
Qed.




(** ** Taking a session apart *)

Lemma for_int_exit_split body :
  forall n k0 s o s',
    Z.of_nat (k0 + n) < 2 ^ 31 ->
    for_int n (Z.of_nat k0) body s = Exit o s' ->
    exists i si,
      (i < n)%nat
      /\ for_int i (Z.of_nat k0) body s = Val tt si
      /\ body (Z.of_nat (k0 + i)) si = Exit o s'.
Proof.
  induction n as [|n IH]; intros k0 s o s' Hb Hrun; [discriminate|].
  simpl in Hrun. unfold bind at 1 in Hrun.
  destruct (body (Z.of_nat k0) s) as [u s1|o1 s1| |] eqn:E; try discriminate.
  - rewrite int32_small in Hrun by lia.
    replace (Z.of_nat k0 + 1) with (Z.of_nat (S k0)) in Hrun by lia.
    destruct (IH (S k0) s1 o s' ltac:(lia) Hrun) as (i & si & Hi & Hpre & Hex).
    exists (S i), si. split; [lia|]. split.
    + simpl. unfold bind at 1. rewrite E.
      rewrite int32_small by lia.
      replace (Z.of_nat k0 + 1) with (Z.of_nat (S k0)) by lia. exact Hpre.
    + replace (k0 + S i)%nat with (S k0 + i)%nat by lia. exact Hex.
  - injection Hrun as <- <-.
    exists 0%nat, s. split; [lia|]. split; [reflexivity|].
    rewrite Nat.add_0_r. exact E.
Qed.

(** With a client, [loop] is [after_wait] at the end of the wait. *)
Lemma loop_shape s :
  link s = Open ->
  exists t', now s <= t' <= now s + 5000 /\ loop s = after_wait (set_now t' s).
Proof.
  intros Hopen.
  pose proof (uint32_range (uint32 (now s) + 5000)) as Hto.
  destruct (wait_loop_spec 500 (uint32 (uint32 (now s) + 5000)) s)
    as (t' & Hrun & Ht' & _); [lia| |].
  { destruct (deadline_cases (now s) 5000 ltac:(lia)) as [E|E];
      [right; exists 500|left]; lia. }
  exists t'. split; [lia|]. now apply loop_after_wait.
Qed.

(** With a valid count at the head of the stream, [after_wait] is the
    region loop followed by [finish]. *)
Lemma after_wait_batch s1 t b q :
  inbox s1 = (t, b) :: q -> t <= now s1 -> 1 <= uint8 b <= 100 ->
  after_wait s1
  = (for_int (Z.to_nat (uint8 b)) 0 region_body ;;; finish) (set_inbox q s1).
Proof.
  intros Hq Ht Hb. unfold after_wait.
  unfold bind at 1, client_available, arrived. rewrite Hq.
  assert (E : (t <=? now s1) = true) by (apply Z.leb_le; exact Ht).
  rewrite E. change (negb true) with false. cbv iota.
  unfold bind at 1, client_read. rewrite Hq, E, uint8_idem.
  assert (Hok : (uint8 b =? 0) || (uint8 b >? 100) = false)
    by (apply orb_false_iff; lia).
  rewrite Hok. reflexivity.
Qed.

(** The drain stops when no arrived byte is left; what it took had
    arrived. *)
Lemma drain_loop_done fuel :
  forall s,
    (length (inbox s) <= fuel)%nat ->
    exists q pre,
      drain_loop fuel s = Val tt (set_inbox q s)
      /\ inbox s = pre ++ q
      /\ Forall (fun tb => fst tb <= now s) pre
      /\ arrived (set_inbox q s) = false.
Proof.
  induction fuel as [|fuel IH]; intros s Hlen.
  - exists (inbox s), []. simpl. unfold bind, client_available, arrived.
    destruct (inbox s) eqn:E; [|simpl in Hlen; lia].
    destruct s; simpl in *. subst. repeat split. constructor.
  - simpl. unfold bind at 1, client_available, arrived.
    destruct (inbox s) as [|[t b] q] eqn:E.
    + exists [], []. destruct s; simpl in *. subst. repeat split. constructor.
    + destruct (t <=? now s) eqn:Ht.
      * unfold bind, client_read. rewrite E, Ht.
        destruct (IH (set_inbox q s)) as (q' & pre & Hrun & Hq & Hpre & Harr).
        { simpl in *. lia. }
        exists q', ((t, b) :: pre). split; [exact Hrun|].
        simpl in Hq. rewrite Hq. split; [reflexivity|].
        split; [|exact Harr].
        constructor; [apply Z.leb_le in Ht; exact Ht|exact Hpre].
      * exists ((t, b) :: q), []. destruct s; simpl in *. subst.
        repeat split; [constructor|]. unfold arrived. simpl. exact Ht.
Qed.

Lemma finish_spec s :
  exists q pre,
    finish s
    = Val tt (set_link Closed
                (set_inbox q (set_now (now s + 10)
                                (set_sent (sent s ++ OK_bytes) s))))
    /\ inbox s = pre ++ q
    /\ Forall (fun tb => fst tb <= now s + 10) pre
    /\ match q with [] => True | (ta, _) :: _ => now s + 10 < ta end.
Proof.
  set (s2 := set_now (now s + 10) (set_sent (sent s ++ OK_bytes) s)).
  destruct (drain_loop_done (length (inbox s2)) s2 (le_n _))
    as (q & pre & Hrun & Hq & Hpre & Harr).
  exists q, pre. split.
  - unfold finish, bind, client_write, delay.
    change (set_now (now (set_sent (sent s ++ OK_bytes) s) + 10)
                    (set_sent (sent s ++ OK_bytes) s)) with s2.
    rewrite Hrun. reflexivity.
  - split; [exact Hq|]. split; [exact Hpre|].
    unfold arrived in Harr. simpl in Harr.
    destruct q as [|[ta b] q]; [exact I|]. apply Z.leb_gt in Harr. exact Harr.
Qed.

(** The three ways a session with a client goes on after the wait. *)
Lemma session_runs s :
  link s = Open ->
  exists t',
    now s <= t' <= now s + 5000
    /\ ((arrived (set_now t' s) = false
         /\ loop s = Exit ClientTimeout (set_link Closed (set_now t' s)))
        \/ exists t b q,
             inbox s = (t, b) :: q /\ t <= t'
             /\ (((uint8 b = 0 \/ uint8 b > 100)
                  /\ loop s = Exit InvalidRegions
                                (set_link Closed (set_inbox q (set_now t' s))))
                 \/ (1 <= uint8 b <= 100
                     /\ loop s
                        = (for_int (Z.to_nat (uint8 b)) 0 region_body ;;; finish)
                            (set_inbox q (set_now t' s))))).
Proof.
  intros Hopen. destruct (loop_shape s Hopen) as (t' & Ht' & Hloop).
  exists t'. split; [exact Ht'|]. rewrite Hloop.
  set (s1 := set_now t' s).
  destruct (arrived s1) eqn:Harr.
  - right. unfold arrived in Harr.
    destruct (inbox s1) as [|[t b] q] eqn:Hq; [discriminate|].
    apply Z.leb_le in Harr.
    exists t, b, q. split; [exact Hq|]. split; [exact Harr|].
    pose proof (uint8_range b) as Hb.
    destruct (Z.eq_dec (uint8 b) 0) as [E0|E0];
      [|destruct (Z_le_gt_dec (uint8 b) 100) as [E1|E1]].
    + left. split; [lia|]. unfold after_wait.
      unfold bind at 1, client_available, arrived. rewrite Hq.
      assert (E : (t <=? now s1) = true) by (apply Z.leb_le; exact Harr).
      rewrite E. change (negb true) with false. cbv iota.
      unfold bind at 1, client_read. rewrite Hq, E, uint8_idem, E0. reflexivity.
    + right. split; [lia|]. apply (after_wait_batch s1 t b q Hq Harr). lia.
    + left. split; [lia|]. unfold after_wait.
      unfold bind at 1, client_available, arrived. rewrite Hq.
      assert (E : (t <=? now s1) = true) by (apply Z.leb_le; exact Harr).
      rewrite E. change (negb true) with false. cbv iota.
      unfold bind at 1, client_read. rewrite Hq, E, uint8_idem.
      assert (Hbad : (uint8 b =? 0) || (uint8 b >? 100) = true)
        by (apply orb_true_iff; lia).
      rewrite Hbad. reflexivity.
  - left. split; [reflexivity|]. unfold after_wait.
    unfold bind at 1, client_available. rewrite Harr. reflexivity.
Qed.

(** X3. No rollback, no skipping: when a session fails in region [i], the
    paint calls it has made are exactly the first [i] regions of the
    stream, in order. *)
Theorem partial_batch_painted (s : State) (o : Outcome) (s' : State) (i : Z) :
  well_formed s -> link s = Open -> loop s = Exit o s' -> fails_in o i ->
  exists t b q ps rest,
    inbox s = (t, b) :: q /\ 0 <= i < uint8 b
    /\ painted s' = painted s ++ ps /\ Z.of_nat (length ps) = i
    /\ decode_regions (Z.to_nat i) (wire q) = Some (map shown ps, rest).
Proof.
  intros Hwf Hopen Hrun Hfail.
  destruct (session_runs s Hopen)
    as (t' & _ & [[_ E]|(t & b & q & Hq & _ & [[_ E]|[Hb E]])]);
    rewrite E in Hrun.
  - injection Hrun as <- _. destruct Hfail as [H|[H|[row H]]]; discriminate.
  - injection Hrun as <- _. destruct Hfail as [H|[H|[row H]]]; discriminate.
  - set (s2 := set_inbox q (set_now t' s)) in *.
    assert (Hcap : BUFFER_BYTES <= Z.of_nat (length (updateBuffer s2)))
      by (unfold well_formed in Hwf; simpl; lia).
    unfold bind in Hrun.
    destruct (for_int (Z.to_nat (uint8 b)) 0 region_body s2)
      as [u s3|o3 s3| |] eqn:Hbatch; try discriminate.
    { destruct (finish_spec s3) as (q' & pre & Hfin & _).
      rewrite Hfin in Hrun. discriminate. }
    injection Hrun as -> ->.
    destruct (for_int_exit_split region_body (Z.to_nat (uint8 b)) 0%nat s2 o s'
                ltac:(lia) Hbatch) as (k & sk & Hk & Hpre & Hex).
    pose proof (batch_spec k s2 ltac:(lia) Hcap) as Hinv.
    unfold wp in Hinv. change (Z.of_nat 0) with 0 in Hpre. rewrite Hpre in Hinv.
    destruct Hinv as (ps & Hp & Hlen & _ & Hdec & _ & _ & _ & HL & _).
    pose proof (region_body_spec (Z.of_nat (0 + k)) sk
                  ltac:(rewrite HL; exact Hcap)) as Hreg.
    unfold wp in Hreg. rewrite Hex in Hreg.
    destruct Hreg as (_ & _ & Hp' & _ & _ & Hwhy).
    assert (Hi : i = Z.of_nat k).
    { simpl in Hwhy. unfold fails_in in Hfail.
      destruct Hwhy as [[-> _]|[[-> _]|(r & hdr & bs & -> & _)]];
        destruct Hfail as [H|[H|[row H]]]; congruence. }
    exists t, b, q, ps, (wire (inbox sk)).
    split; [exact Hq|]. split; [lia|].
    split; [rewrite Hp', Hp; reflexivity|]. split; [lia|].
    specialize (Hdec 0%nat). rewrite Nat.add_0_r in Hdec.
    simpl in Hdec. rewrite app_nil_r in Hdec.
    rewrite Hi, Nat2Z.id. exact Hdec.
Qed.


(** ** Which reads fail *)


Lemma load_no_exit p i s o s' : load p i s <> Exit o s'.
Proof.
  unfold load. destruct p; simpl;
    repeat match goal with
           | |- (if ?c then _ else _) <> _ => destruct c
           | |- match ?c with _ => _ end <> _ => destruct c
           end; discriminate.
Qed.

Lemma store_no_exit p i v s o s' : store p i v s <> Exit o s'.
Proof.
  unfold store. destruct p;
    match goal with
    | |- (if ?c then _ else _) <> _ => destruct c
    end; discriminate.
Qed.

Lemma swap_body_no_exit p j s o s' : swap_body p j s <> Exit o s'.
Proof.
  unfold swap_body, bind. intros E.
  destruct (load p (int32 (j * 2)) s) as [a s1|o1 s1| |] eqn:E1;
    try discriminate; [|exact (load_no_exit _ _ _ _ _ E1)].
  destruct (load p (int32 (int32 (j * 2) + 1)) s1) as [b s2|o2 s2| |] eqn:E2;
    try discriminate; [|exact (load_no_exit _ _ _ _ _ E2)].
  destruct (store p (int32 (j * 2)) b s2) as [u s3|o3 s3| |] eqn:E3;
    try discriminate; [|exact (store_no_exit _ _ _ _ _ _ E3)].
  exact (store_no_exit _ _ _ _ _ _ E).
Qed.

Lemma for_int_no_exit body :
  (forall j s o s', body j s <> Exit o s') ->
  forall n j s o s', for_int n j body s <> Exit o s'.
Proof.
  intros Hbody. induction n as [|n IH]; intros j s o s' E; [discriminate|].
  simpl in E. unfold bind at 1 in E.
  destruct (body j s) as [u s1|o1 s1| |] eqn:E1; try discriminate.
  - exact (IH _ _ _ _ E).
  - exact (Hbody _ _ _ _ E1).
Qed.


(** X6. A row is given up with "Failed to read row" exactly when its
    [width * 2] bytes cannot be polled before the deadline of the read. *)
Theorem row_timeout_iff (i w row : Z) (s : State) :
  0 <= w <= MAX_CHUNK_SIZE -> 0 <= row < MAX_CHUNK_SIZE -> well_formed s ->
  (exists s', row_body i w row s = Exit (RowFailed row i) s')
  <-> in_time (Z.to_nat (w * 2)) (now s) (deadline s) (inbox s) = false.
Proof.
  unfold MAX_CHUNK_SIZE. intros Hw Hrow Hwf.
  assert (Hrw : 0 <= row * w <= 31 * 32) by nia.
  unfold well_formed, BUFFER_BYTES, MAX_CHUNK_SIZE in Hwf.
  unfold row_body.
  rewrite (int32_small (row * w)) by lia.
  rewrite (int32_small (w * 2)) by lia.
  rewrite (uint32_small (w * 2)) by lia.
  destruct (readExactBytes_spec (BufPtr (2 * (row * w))) (w * 2) s)
    as (ok & s1 & Hrun & _); [simpl; lia | lia | simpl; lia |].
  pose proof (readExactBytes_in_time _ (w * 2) s ok s1 ltac:(lia) Hrun) as Hok.
  rewrite <- Hok. unfold bind at 1.
  rewrite Hrun. destruct ok; simpl negb; cbv iota.
  - split; [|discriminate]. intros (s' & Hex). exfalso.
    exact (for_int_no_exit _ (swap_body_no_exit _) _ _ _ _ _ Hex).
  - split; [reflexivity|]. intros _.
    exists (set_link Closed s1). reflexivity.
Qed.

(** ** A batch that is all there *)

Lemma in_time_delivered n :
  forall t d (q : list (Z * Z)),
    (n <= length q)%nat -> Forall (fun tb => fst tb <= t) q ->
    t + Z.of_nat n <= d -> in_time n t d q = true.
Proof.
  induction n as [|n IH]; intros t d q Hlen Hall Hd; [reflexivity|].
  destruct q as [|[ta b] q]; [simpl in Hlen; lia|].
  apply Forall_cons in Hall. destruct Hall as [Hta Hall]. simpl in Hta.
  cbn [in_time]. replace (Z.max t ta) with t by lia.
  assert (E : (t <? d) = true) by (apply Z.ltb_lt; lia). rewrite E.
  apply IH; [simpl in Hlen; lia| |lia].
  eapply Forall_impl; [exact Hall|]. simpl. intros. lia.
Qed.

Lemma delivered_later s s' pre :
  delivered s -> inbox s = pre ++ inbox s' -> now s <= now s' -> delivered s'.
Proof.
  unfold delivered. intros Hall Hq Hn. rewrite Hq in Hall.
  apply Forall_app in Hall. destruct Hall as [_ Hall].
  eapply Forall_impl; [exact Hall|]. simpl. intros. lia.
Qed.

(** The clock on the [millis()] scale, as long as it does not wrap. *)
Lemma headroom s s' d b :
  now s <= now s' <= now s + d -> d <= b -> uint32 (now s) + b < 2 ^ 32 ->
  uint32 (now s') + (b - d) < 2 ^ 32.
Proof.
  intros Hn Hd Hb. pose proof (uint32_range (now s)).
  replace (now s') with (now s + (now s' - now s)) by lia.
  rewrite uint32_add_small; lia.
Qed.

(** With its bytes all there and no wrap of [millis()] ahead, a read
    succeeds. *)
Lemma readExactBytes_delivered p len s :
  0 <= offset p -> 0 <= len <= 1000 ->
  offset p + len <= Z.of_nat (length (target p s)) ->
  delivered s -> len <= Z.of_nat (length (inbox s)) ->
  uint32 (now s) + 1000 < 2 ^ 32 ->
  exists s',
    readExactBytes p len s = Val true s'
    /\ reads p 0 s len s' /\ now s <= now s' <= now s + 1000
    /\ delivered s'.
Proof.
  intros Ho Hlen Hcap Hdel Hq Hwrap.
  destruct (readExactBytes_spec p len s Ho ltac:(lia) Hcap)
    as (ok & s' & Hrun & r & Hrd & Hr & Hok & _ & Hel).
  pose proof (readExactBytes_in_time p len s ok s' ltac:(lia) Hrun) as Hin.
  pose proof (uint32_range (now s)) as Hm.
  assert (Hdl : deadline s = now s + 1000).
  { unfold deadline. rewrite (uint32_small (uint32 (now s) + 1000)) by lia. lia. }
  rewrite Hdl, in_time_delivered in Hin; [|lia|exact Hdel|lia].
  subst ok. assert (r = len) by (apply Hok; reflexivity). subst r.
  exists s'. split; [exact Hrun|]. split; [exact Hrd|].
  destruct Hrd as (bs & Hbs & _ & Hn & _).
  split; [lia|]. exact (delivered_later s s' bs Hdel Hbs Hn).
Qed.

Lemma row_body_delivered i w row s :
  0 <= w <= MAX_CHUNK_SIZE -> 0 <= row < MAX_CHUNK_SIZE ->
  well_formed s -> delivered s -> w * 2 <= Z.of_nat (length (inbox s)) ->
  uint32 (now s) + 1000 < 2 ^ 32 ->
  exists s',
    row_body i w row s = Val tt s'
    /\ well_formed s' /\ delivered s'
    /\ Z.of_nat (length (inbox s')) = Z.of_nat (length (inbox s)) - w * 2
    /\ now s <= now s' <= now s + 1000.
Proof.
  intros Hw Hrow Hwf Hdel Hq Hwrap.
  pose proof (uint32_range (now s)) as Hm.
  assert (Hin : in_time (Z.to_nat (w * 2)) (now s) (deadline s) (inbox s) = true).
  { unfold deadline. rewrite (uint32_small (uint32 (now s) + 1000)) by lia.
    unfold MAX_CHUNK_SIZE in Hw. apply in_time_delivered; [lia|exact Hdel|lia]. }
  pose proof (row_timeout_iff i w row s Hw Hrow Hwf) as Hiff.
  assert (Hrw : 0 <= row * w <= 31 * 32) by (unfold MAX_CHUNK_SIZE in *; nia).
  pose proof (row_body_cases i w row s Hw Hrow) as Hcases.
  pose proof (lasts_row_body i w row s) as Ht. unfold lasts in Ht.
  unfold well_formed, BUFFER_BYTES, MAX_CHUNK_SIZE in Hwf, Hcases.
  specialize (Hcases ltac:(unfold MAX_CHUNK_SIZE in *; lia)).
  destruct (row_body i w row s) as [[] s'|o s'| |] eqn:Hrun; try contradiction.
  - exists s'. split; [reflexivity|].
    destruct Hcases as (bs & Hbs & Hlen & HU).
    split.
    { unfold well_formed, BUFFER_BYTES, MAX_CHUNK_SIZE. rewrite HU.
      rewrite length_blit; [exact Hwf|lia|].
      rewrite length_swap_pairs, length_wire. unfold MAX_CHUNK_SIZE in *. lia. }
    split; [exact (delivered_later s s' bs Hdel Hbs ltac:(lia))|].
    split; [|exact Ht].
    rewrite Hbs, length_app. lia.
  - exfalso. subst o.
    assert (Hf : in_time (Z.to_nat (w * 2)) (now s) (deadline s) (inbox s) = false)
      by (apply Hiff; eauto).
    congruence.
Qed.

Lemma rows_delivered i w h s0 :
  0 <= w <= MAX_CHUNK_SIZE -> 0 <= h <= MAX_CHUNK_SIZE ->
  well_formed s0 -> delivered s0 ->
  h * (w * 2) <= Z.of_nat (length (inbox s0)) ->
  uint32 (now s0) + 1000 * h < 2 ^ 32 ->
  exists s',
    for_int (Z.to_nat h) 0 (row_body i w) s0 = Val tt s'
    /\ well_formed s' /\ delivered s'
    /\ now s0 <= now s' <= now s0 + 1000 * h.
Proof.
  intros Hw Hh Hwf Hdel Hq Hwrap.
  set (I := fun (r : nat) (s : State) =>
              well_formed s /\ delivered s
              /\ (h - Z.of_nat r) * (w * 2) <= Z.of_nat (length (inbox s))
              /\ now s0 <= now s <= now s0 + 1000 * Z.of_nat r).
  pose proof (wp_for_int I (fun _ _ => False) (row_body i w)
                (Z.to_nat h) 0%nat s0) as H.
  unfold wp in H. change (Z.of_nat 0) with 0 in H.
  assert (Hfin : match for_int (Z.to_nat h) 0 (row_body i w) s0 with
                 | Val _ s' => I (0 + Z.to_nat h)%nat s'
                 | Exit _ _ => False
                 | _ => False
                 end).
  { apply H.
    - unfold MAX_CHUNK_SIZE in Hh. lia.
    - unfold I. repeat split; try assumption; lia.
    - intros r s1 Hr (Hwf1 & Hdel1 & Hq1 & Hn1).
      destruct (row_body_delivered i w (Z.of_nat r) s1) as (s2 & Hrun & Hwf2 & Hdel2 & Hq2 & Hn2);
        try assumption; try lia.
      + assert ((h - Z.of_nat r) * (w * 2) >= 1 * (w * 2)) by nia. lia.
      + pose proof (headroom s0 s1 (1000 * Z.of_nat r) (1000 * h) Hn1
                      ltac:(lia) ltac:(lia)).
        lia.
      + rewrite Hrun. unfold I. repeat split; try assumption; nia. }
  destruct (for_int (Z.to_nat h) 0 (row_body i w) s0) as [[] s'| | |];
    try contradiction.
  destruct Hfin as (Hwf' & Hdel' & _ & Hn').
  exists s'. repeat split; try assumption; lia.
Qed.

Lemma wire_take n q : wire (take n q) = take n (wire q).
Proof. unfold wire. symmetry. apply firstn_map. Qed.

Lemma wire_drop n q : wire (drop n q) = drop n (wire q).
Proof. unfold wire. symmetry. apply skipn_map. Qed.

(** A region that is all there, well-formed, is read whole and painted. *)
Lemma region_body_delivered i s r rest :
  well_formed s -> delivered s ->
  decode_region (wire (inbox s)) = Some (r, rest) ->
  uint32 (now s) + REGION_MS < 2 ^ 32 ->
  exists s',
    region_body i s = Val tt s'
    /\ well_formed s' /\ delivered s'
    /\ wire (inbox s') = rest
    /\ now s <= now s' <= now s + REGION_MS.
Proof.
  intros Hwf Hdel Hdec Hwrap.
  unfold REGION_MS, MAX_CHUNK_SIZE in Hwrap.
  (* what the decoding says about the stream *)
  unfold decode_region in Hdec.
  destruct (length (wire (inbox s)) <? 8)%nat eqn:E8; [discriminate|].
  apply Nat.ltb_ge in E8. rewrite length_wire in E8.
  rewrite <- wire_take in Hdec. fold (header s) in Hdec.
  destruct (rejects (header s)) eqn:Hrej; [discriminate|].
  destruct (length (drop 8 (wire (inbox s)))
            <? Z.to_nat (2 * (field (header s) 3 * field (header s) 2)))%nat
    eqn:En; [discriminate|].
  apply Nat.ltb_ge in En. rewrite length_drop, length_wire in En.
  pose proof Hrej as Hv.
  apply invalid_dimensions_false in Hv; try apply field_range.
  pose proof (field_range (header s) 2) as Hw.
  pose proof (field_range (header s) 3) as Hh.
  (* the header *)
  set (sa := set_metaData (replicate 8 0) s).
  destruct (readExactBytes_delivered (MetaPtr 0) 8 sa)
    as (s1 & Hrun & Hrd & Hn1 & Hdel1); try (simpl; lia); try exact Hdel.
  destruct (region_body_header i s s1 Hrun)
    as (Hq & Hlen & _ & _ & _ & _ & HU & _ & Heq).
  change (now sa) with (now s) in Hn1.
  assert (Hwf1 : well_formed s1) by (unfold well_formed; rewrite HU; exact Hwf).
  assert (Hlen1 : Z.of_nat (length (inbox s1)) = Z.of_nat (length (inbox s)) - 8).
  { apply (f_equal length) in Hq. rewrite length_app, Hlen in Hq. lia. }
  (* the rows *)
  destruct (rows_delivered i (field (header s) 2) (field (header s) 3) s1)
    as (s2 & Hrows & Hwf2 & Hdel2 & Hn2);
    try assumption; try (unfold MAX_CHUNK_SIZE; lia).
  { pose proof (headroom s s1 1000 (1000 + 1000 * field (header s) 3) Hn1
                  ltac:(lia) ltac:(lia)).
    lia. }
  (* the paint *)
  assert (Hval : exists s', region_body i s = Val tt s'
                            /\ now s <= now s' <= now s + (1000 + 32 * 1000 + 1)).
  { rewrite Heq. unfold after_header. rewrite Hrej.
    unfold bind at 1. rewrite Hrows.
    eexists. split; [reflexivity|]. simpl. lia. }
  destruct Hval as (s' & Hval & Hn').
  exists s'. split; [exact Hval|].
  destruct (region_body_done i s tt s' Hwf Hval) as (payload & Hdone).
  destruct (region_done_decode s s' _ payload
              ltac:(unfold well_formed in Hwf; lia) Hdone)
    as (p & _ & _ & Hdec').
  destruct Hdone as (Hq' & _ & _ & Hpl & HU' & _ & _ & _ & Hnow & _).
  split.
  { unfold well_formed. rewrite HU', length_blit; [exact Hwf|lia|].
    rewrite length_swap_pairs, length_wire.
    fold (header s) in Hpl.
    assert (field (header s) 3 * field (header s) 2 <= 32 * 32)
      by (apply Z.mul_le_mono_nonneg; lia).
    unfold well_formed, BUFFER_BYTES, MAX_CHUNK_SIZE in Hwf. lia. }
  split.
  { apply (delivered_later s s' (take 8 (inbox s) ++ payload) Hdel);
      [rewrite <- app_assoc; exact Hq'|lia]. }
  split; [|unfold REGION_MS, MAX_CHUNK_SIZE; exact Hn'].
  unfold decode_region in Hdec'.
  assert (E8' : (length (wire (inbox s)) <? 8)%nat = false)
    by (apply Nat.ltb_ge; rewrite length_wire; exact E8).
  rewrite E8' in Hdec'. rewrite <- wire_take in Hdec'. fold (header s) in Hdec'.
  rewrite Hrej in Hdec'.
  assert (En' : (length (drop 8 (wire (inbox s)))
                 <? Z.to_nat (2 * (field (header s) 3 * field (header s) 2)))%nat
                = false)
    by (apply Nat.ltb_ge; rewrite length_drop, length_wire; exact En).
  rewrite En' in Hdec'. congruence.
Qed.

Lemma batch_delivered :
  forall n k0 s regs rest,
    Z.of_nat (k0 + n) < 2 ^ 31 ->
    well_formed s -> delivered s ->
    decode_regions n (wire (inbox s)) = Some (regs, rest) ->
    uint32 (now s) + Z.of_nat n * REGION_MS < 2 ^ 32 ->
    exists s', for_int n (Z.of_nat k0) region_body s = Val tt s'.
Proof.
  assert (Hreg : 0 <= REGION_MS) by (unfold REGION_MS, MAX_CHUNK_SIZE; lia).
  induction n as [|n IH]; intros k0 s regs rest Hb Hwf Hdel Hdec Hwrap.
  - exists s. reflexivity.
  - simpl in Hdec.
    destruct (decode_region (wire (inbox s))) as [[r rest1]|] eqn:Hr;
      [|discriminate].
    destruct (decode_regions n rest1) as [[rs rest2]|] eqn:Hrs; [|discriminate].
    destruct (region_body_delivered (Z.of_nat k0) s r rest1 Hwf Hdel Hr)
      as (s1 & Hrun & Hwf1 & Hdel1 & Hq1 & Hn1); [nia|].
    destruct (IH (S k0) s1 rs rest2) as (s' & Hrest);
      try assumption; try lia.
    + rewrite Hq1. exact Hrs.
    + pose proof (headroom s s1 REGION_MS (Z.of_nat (S n) * REGION_MS) Hn1
                    ltac:(nia) Hwrap).
      nia.
    + exists s'. simpl. unfold bind at 1. rewrite Hrun.
      rewrite int32_small by lia.
      replace (Z.of_nat k0 + 1) with (Z.of_nat (S k0)) by lia. exact Hrest.
Qed.

(** X7. A well-formed batch that is all there is served: when every byte
    of the stream has arrived at the accept, the count is valid and the
    bytes after it decode as that many regions, [loop] paints exactly
    those regions, writes ["OK"] and stops the connection.  ([millis()]
    must not wrap during the session.) *)
Theorem delivered_batch_acknowledged
    (s : State) (t b : Z) (q : list (Z * Z)) (regs : list Region)
    (rest : list Z) :
  well_formed s -> link s = Open -> delivered s ->
  inbox s = (t, b) :: q -> 1 <= uint8 b <= 100 ->
  decode_regions (Z.to_nat (uint8 b)) (wire q) = Some (regs, rest) ->
  uint32 (now s) + SESSION_MS < 2 ^ 32 ->
  exists s' ps,
    loop s = Val tt s'
    /\ painted s' = painted s ++ ps /\ map shown ps = regs
    /\ sent s' = sent s ++ OK_bytes /\ link s' = Closed.
Proof.
  intros Hwf Hopen Hdel Hq Hb Hdec Hwrap.
  assert (Hreg : 0 <= REGION_MS) by (unfold REGION_MS, MAX_CHUNK_SIZE; lia).
  assert (Hval : exists s', loop s = Val tt s').
  { destruct (session_runs s Hopen)
      as (t' & Ht' & [[Harr _]|(t0 & b0 & q0 & Hq0 & _ & [[Hbad _]|[_ E]])]).
    - exfalso. unfold arrived in Harr. simpl in Harr. rewrite Hq in Harr.
      unfold delivered in Hdel. rewrite Hq in Hdel.
      apply Forall_cons in Hdel. destruct Hdel as [Ht _]. simpl in Ht.
      apply Z.leb_gt in Harr. lia.
    - rewrite Hq in Hq0. injection Hq0 as <- <- <-. lia.
    - rewrite Hq in Hq0. injection Hq0 as <- <- <-.
      set (s2 := set_inbox q (set_now t' s)) in *.
      destruct (batch_delivered (Z.to_nat (uint8 b)) 0%nat s2 regs rest)
        as (s3 & Hbatch); try exact Hdec; try lia.
      + exact Hwf.
      + unfold delivered in *. rewrite Hq in Hdel.
        apply Forall_cons in Hdel. destruct Hdel as [_ Hdel]. simpl.
        eapply Forall_impl; [exact Hdel|]. simpl. intros. lia.
      + pose proof (headroom s s2 5000 SESSION_MS ltac:(simpl; lia)
                      ltac:(unfold SESSION_MS; lia) Hwrap) as Hh.
        unfold SESSION_MS in Hh. nia.
      + destruct (finish_spec s3) as (q' & pre & Hfin & _).
        eexists. rewrite E. unfold bind. change (Z.of_nat 0) with 0 in Hbatch.
        rewrite Hbatch. exact Hfin. }
  destruct Hval as (s' & Hval).
  pose proof (loop_cases s Hwf) as H. rewrite Hval in H.
  destruct H as (_ & t0 & b0 & q0 & ps & rest0 & Hq0 & _ & Hp & _ & _ & Hdec0
                 & Hs & Hl & _).
  rewrite Hq in Hq0. injection Hq0 as <- <- <-.
  exists s', ps. split; [exact Hval|]. split; [exact Hp|].
  split; [congruence|]. split; [exact Hs|exact Hl].
Qed.

(** ** The header on the wire *)

Lemma wire_byte_range q (k : nat) : 0 <= wire q !!! k < 256.
Proof.
  rewrite list_lookup_total_alt.
  destruct (wire q !! k) as [v|] eqn:E; simpl.
  - unfold wire in E. apply list_lookup_fmap_Some in E.
    destruct E as (tb & -> & _). apply uint8_range.
  - cbv. split; [discriminate|reflexivity].
Qed.

(** X8. The four fields of a region header are big-endian: the rectangle of
    the paint call of a region has [x], [y], [width] and [height] equal to
    [256 * b + b'] for the consecutive byte pairs [b], [b'] of the eight
    header bytes. *)
Theorem header_is_big_endian (i : Z) (s : State) (u : unit) (s' : State) :
  well_formed s -> region_body i s = Val u s' ->
  exists p,
    painted s' = painted s ++ [p]
    /\ px p = 256 * header s !!! 0%nat + header s !!! 1%nat
    /\ py p = 256 * header s !!! 2%nat + header s !!! 3%nat
    /\ pw p = 256 * header s !!! 4%nat + header s !!! 5%nat
    /\ ph p = 256 * header s !!! 6%nat + header s !!! 7%nat.
Proof.
  intros Hwf Hrun.
  destruct (region_body_done i s u s' Hwf Hrun)
    as (payload & _ & _ & _ & _ & _ & Hp & _).
  fold (header s) in Hp.
  exists (paint_of (header s) (updateBuffer s')). split; [exact Hp|].
  unfold paint_of, field, header. cbn [px py pw ph].
  repeat split; apply be16_bytes; apply wire_byte_range.
Qed.

(** ** The byte-order loop, twice *)

Lemma swap_pairs_involutive bs : swap_pairs (swap_pairs bs) = bs.
Proof.
  induction bs as [bs IH] using (induction_ltof1 _ (@length Z)).
  destruct bs as [|a [|b rest]]; try reflexivity.
  simpl. rewrite IH; [reflexivity|]. unfold ltof. simpl. lia.
Qed.

Lemma blit_self mem a n :
  0 <= a -> blit mem a (take n (drop (Z.to_nat a) mem)) = mem.
Proof.
  intros Ha. unfold blit. set (A := Z.to_nat a).
  assert (E : drop (A + length (take n (drop A mem))) mem = drop n (drop A mem)).
  { rewrite drop_drop, length_take, length_drop.
    destruct (Nat.le_gt_cases n (length mem - A)).
    - f_equal. lia.
    - rewrite !drop_ge; [reflexivity|lia|lia]. }
  rewrite E, take_drop, take_drop. reflexivity.
Qed.

(** X9. The byte-order loop loses nothing: run twice over the same row it
    leaves [updateBuffer] as it found it. *)
Theorem byte_order_loop_twice (w base : Z) (s : State) :
  0 <= w <= MAX_CHUNK_SIZE -> 0 <= base ->
  base + w * 2 <= Z.of_nat (length (updateBuffer s)) ->
  exists s1 s2,
    for_int (Z.to_nat w) 0 (swap_body (BufPtr base)) s = Val tt s1
    /\ for_int (Z.to_nat w) 0 (swap_body (BufPtr base)) s1 = Val tt s2
    /\ updateBuffer s2 = updateBuffer s.
Proof.
  unfold MAX_CHUNK_SIZE. intros Hw Hb Hcap.
  set (row := take (Z.to_nat (w * 2)) (drop (Z.to_nat base) (updateBuffer s))).
  assert (Hlen : length row = Z.to_nat (w * 2)).
  { subst row. rewrite length_take, length_drop. lia. }
  assert (Hhalf : (length row / 2)%nat = Z.to_nat w).
  { rewrite Hlen. replace (Z.to_nat (w * 2)) with (Z.to_nat w * 2)%nat by lia.
    apply Nat.div_mul. lia. }
  assert (Heven : Nat.Even (length row)) by (exists (Z.to_nat w); lia).
  pose proof (swap_loop_spec (updateBuffer s) base row s Hb
                ltac:(lia) Heven ltac:(lia)
                ltac:(symmetry; apply blit_self; exact Hb)) as H1.
  unfold wp in H1. rewrite Hhalf in H1.
  destruct (for_int (Z.to_nat w) 0 (swap_body (BufPtr base)) s)
    as [[] s1|o s1| |] eqn:E1; try contradiction.
  destruct H1 as (HU1 & _).
  pose proof (swap_loop_spec (updateBuffer s) base (swap_pairs row) s1 Hb
                ltac:(rewrite length_swap_pairs; lia)
                ltac:(rewrite length_swap_pairs; exact Heven)
                ltac:(rewrite length_swap_pairs; lia) HU1) as H2.
  unfold wp in H2. rewrite length_swap_pairs, Hhalf in H2.
  destruct (for_int (Z.to_nat w) 0 (swap_body (BufPtr base)) s1)
    as [[] s2|o s2| |] eqn:E2; try contradiction.
  destruct H2 as (HU2 & _).
  exists s1, s2. split; [reflexivity|]. split; [exact E2|].
  rewrite HU2, swap_pairs_involutive. apply blit_self. exact Hb.
Qed.

(** ** [setup] *)








(** ** Examples of the further properties *)

Lemma header_is_big_endian_witness :
  well_formed scenario_region
  /\ region_body 0 scenario_region = Val tt scenario_region_done
  /\ exists p,
       painted scenario_region_done = painted scenario_region ++ [p]
       /\ px p = 256 * header scenario_region !!! 0%nat
                 + header scenario_region !!! 1%nat
       /\ py p = 256 * header scenario_region !!! 2%nat
                 + header scenario_region !!! 3%nat
       /\ pw p = 256 * header scenario_region !!! 4%nat
                 + header scenario_region !!! 5%nat
       /\ ph p = 256 * header scenario_region !!! 6%nat
                 + header scenario_region !!! 7%nat.
Proof.
  assert (Hwf : well_formed scenario_region) by reflexivity.
  assert (Hrun : region_body 0 scenario_region = Val tt scenario_region_done)
    by (vm_compute; reflexivity).
  split; [exact Hwf|]. split; [exact Hrun|].
  exact (header_is_big_endian 0 _ tt _ Hwf Hrun).
Defined.


Lemma row_timeout_iff_witness :
  0 <= 2 <= MAX_CHUNK_SIZE /\ 0 <= 0 < MAX_CHUNK_SIZE
  /\ well_formed slow_client
  /\ ((exists s', row_body 0 2 0 slow_client = Exit (RowFailed 0 0) s')
      <-> in_time (Z.to_nat (2 * 2)) (now slow_client) (deadline slow_client)
                  (inbox slow_client) = false).
Proof.
  assert (Hw : 0 <= 2 <= MAX_CHUNK_SIZE) by (unfold MAX_CHUNK_SIZE; lia).
  assert (Hrow : 0 <= 0 < MAX_CHUNK_SIZE) by (unfold MAX_CHUNK_SIZE; lia).
  assert (Hwf : well_formed slow_client) by reflexivity.
  split; [exact Hw|]. split; [exact Hrow|]. split; [exact Hwf|].
  exact (row_timeout_iff 0 2 0 slow_client Hw Hrow Hwf).
Defined.

Lemma byte_order_loop_twice_witness :
  0 <= 2 <= MAX_CHUNK_SIZE /\ 0 <= 0
  /\ 0 + 2 * 2 <= Z.of_nat (length (updateBuffer scenario_region_done))
  /\ exists s1 s2,
       for_int (Z.to_nat 2) 0 (swap_body (BufPtr 0)) scenario_region_done
       = Val tt s1
       /\ for_int (Z.to_nat 2) 0 (swap_body (BufPtr 0)) s1 = Val tt s2
       /\ updateBuffer s2 = updateBuffer scenario_region_done.
Proof.
  assert (Hw : 0 <= 2 <= MAX_CHUNK_SIZE) by (unfold MAX_CHUNK_SIZE; lia).
  assert (Hb : 0 <= 0) by lia.
  assert (Hcap : 0 + 2 * 2
                 <= Z.of_nat (length (updateBuffer scenario_region_done)))
    by (vm_compute; discriminate).
  split; [exact Hw|]. split; [exact Hb|]. split; [exact Hcap|].
  exact (byte_order_loop_twice 2 0 scenario_region_done Hw Hb Hcap).
Defined.


Lemma partial_batch_painted_witness :
  well_formed second_region_bad /\ link second_region_bad = Open
  /\ loop second_region_bad = Exit (InvalidDimensions 1) second_region_bad_end
  /\ fails_in (InvalidDimensions 1) 1
  /\ exists t b q ps rest,
       inbox second_region_bad = (t, b) :: q /\ 0 <= 1 < uint8 b
       /\ painted second_region_bad_end = painted second_region_bad ++ ps
       /\ Z.of_nat (length ps) = 1
       /\ decode_regions (Z.to_nat 1) (wire q) = Some (map shown ps, rest).
Proof.
  assert (Hwf : well_formed second_region_bad) by reflexivity.
  assert (Hopen : link second_region_bad = Open) by reflexivity.
  assert (Hrun : loop second_region_bad
                 = Exit (InvalidDimensions 1) second_region_bad_end)
    by (vm_compute; reflexivity).
  assert (Hf : fails_in (InvalidDimensions 1) 1) by (right; left; reflexivity).
  split; [exact Hwf|]. split; [exact Hopen|]. split; [exact Hrun|].
  split; [exact Hf|].
  exact (partial_batch_painted _ _ _ 1 Hwf Hopen Hrun Hf).
Defined.



Lemma delivered_batch_acknowledged_witness :
  well_formed scenario_session /\ link scenario_session = Open
  /\ delivered scenario_session
  /\ inbox scenario_session = (0, 1) :: at_time 0 (tail scenario)
  /\ 1 <= uint8 1 <= 100
  /\ decode_regions (Z.to_nat (uint8 1)) (wire (at_time 0 (tail scenario)))
     = Some ([mkRegion 0 0 2 1 [0xFF; 0x00; 0x34; 0x12]], [])
  /\ uint32 (now scenario_session) + SESSION_MS < 2 ^ 32
  /\ exists s' ps,
       loop scenario_session = Val tt s'
       /\ painted s' = painted scenario_session ++ ps
       /\ map shown ps = [mkRegion 0 0 2 1 [0xFF; 0x00; 0x34; 0x12]]
       /\ sent s' = sent scenario_session ++ OK_bytes /\ link s' = Closed.
Proof.
  assert (Hwf : well_formed scenario_session) by reflexivity.
  assert (Hopen : link scenario_session = Open) by reflexivity.
  assert (Hdel : delivered scenario_session)
    by (unfold delivered; simpl; repeat constructor; simpl; lia).
  assert (Hq : inbox scenario_session = (0, 1) :: at_time 0 (tail scenario))
    by reflexivity.
  assert (Hb : 1 <= uint8 1 <= 100) by (vm_compute; split; discriminate).
  assert (Hdec : decode_regions (Z.to_nat (uint8 1))
                   (wire (at_time 0 (tail scenario)))
                 = Some ([mkRegion 0 0 2 1 [0xFF; 0x00; 0x34; 0x12]], []))
    by (vm_compute; reflexivity).
  assert (Hwrap : uint32 (now scenario_session) + SESSION_MS < 2 ^ 32)
    by (vm_compute; reflexivity).
  split; [exact Hwf|]. split; [exact Hopen|]. split; [exact Hdel|].
  split; [exact Hq|]. split; [exact Hb|]. split; [exact Hdec|].
  split; [exact Hwrap|].
  exact (delivered_batch_acknowledged _ _ _ _ _ _ Hwf Hopen Hdel Hq Hb Hdec Hwrap).
Defined.


